(** * Agent IDE: the execution environment

    A shallow embedding of [agent_ide/core/agent.py] and
    [agent_ide/core/execution.py], and the properties of the execution
    environment stated over it.

    Conventions of the embedding:
    - a Python [str] is a [string] whose characters are the code points
      (below 256) of the text; a Python [int] is a [Z];
    - a [datetime] is the number of microseconds since the epoch, and a
      duration is a difference of two of them, in microseconds
      ([timedelta.total_seconds()] is that number divided by 10^6);
    - a [dict] is a [gmap];
    - a method that mutates [self] or its [agent] argument is a computation
      in the monad [M], which threads the objects and carries a raised
      exception to the nearest handler. *)

From Stdlib Require Import ZArith Lia.
From stdpp Require Import base gmap strings pretty list sorting.

Open Scope string_scope.
Open Scope list_scope.
Open Scope nat_scope.

(** ** agent.py *)

Definition datetime := Z.

Record AgentConfig := {
  name : string;
  description : option string;
  agent_type : string;
  parameters : gmap string string;
  capabilities : list string;
  model : option string;
  max_iterations : Z;
  timeout : Z
}.

Record AgentState := {
  status : string;
  current_task : option string;
  iteration_count : Z;
  start_time : option datetime;
  end_time : option datetime;
  error_message : option string
}.

(** [AgentState()]: every field at its default. *)
Definition AgentState_default : AgentState :=
  {| status := "idle"; current_task := None; iteration_count := 0;
     start_time := None; end_time := None; error_message := None |}.

Record Agent := {
  id : string;
  config : AgentConfig;
  state : AgentState;
  code : string;
  created_at : datetime;
  updated_at : datetime
}.

(** One keyword argument of a call of [update_state]: a field of
    [AgentState] and the value given for it.  The calls in execution.py
    pass nothing else; a keyword that is not a field of the state is
    outside the embedding. *)
Inductive kwarg :=
| kw_status (v : string)
| kw_current_task (v : option string)
| kw_iteration_count (v : Z)
| kw_start_time (v : option datetime)
| kw_end_time (v : option datetime)
| kw_error_message (v : option string).

(** [if hasattr(self.state, key): setattr(self.state, key, value)], for a
    key that is a field of the state: [hasattr] holds and the field is
    assigned. *)
Definition setattr (s : AgentState) (kw : kwarg) : AgentState :=
  match kw with
  | kw_status v =>
      {| status := v; current_task := current_task s;
         iteration_count := iteration_count s; start_time := start_time s;
         end_time := end_time s; error_message := error_message s |}
  | kw_current_task v =>
      {| status := status s; current_task := v;
         iteration_count := iteration_count s; start_time := start_time s;
         end_time := end_time s; error_message := error_message s |}
  | kw_iteration_count v =>
      {| status := status s; current_task := current_task s;
         iteration_count := v; start_time := start_time s;
         end_time := end_time s; error_message := error_message s |}
  | kw_start_time v =>
      {| status := status s; current_task := current_task s;
         iteration_count := iteration_count s; start_time := v;
         end_time := end_time s; error_message := error_message s |}
  | kw_end_time v =>
      {| status := status s; current_task := current_task s;
         iteration_count := iteration_count s; start_time := start_time s;
         end_time := v; error_message := error_message s |}
  | kw_error_message v =>
      {| status := status s; current_task := current_task s;
         iteration_count := iteration_count s; start_time := start_time s;
         end_time := end_time s; error_message := v |}
  end.

Definition with_state (st : AgentState) (t : datetime) (a : Agent) : Agent :=
  {| id := id a; config := config a; state := st; code := code a;
     created_at := created_at a; updated_at := t |}.

(** [Agent.is_running] *)
Definition is_running (a : Agent) : bool :=
  bool_decide (status (state a) = "running").

(** ** str.strip *)

(** [str.isspace] on one character, for the code points below 256. *)
Definition isspace (c : Ascii.ascii) : bool :=
  let n := Ascii.N_of_ascii c in
  ((9 <=? n) && (n <=? 13) || (28 <=? n) && (n <=? 32)
   || (n =? 133) || (n =? 160))%N.

Fixpoint lstrip (s : string) : string :=
  match s with
  | "" => ""
  | String c s' => if isspace c then lstrip s' else s
  end.

Fixpoint rstrip (s : string) : string :=
  match s with
  | "" => ""
  | String c s' =>
      match rstrip s' with
      | "" => if isspace c then "" else String c ""
      | r => String c r
      end
  end.

Definition strip (s : string) : string := rstrip (lstrip s).

Fixpoint all_space (s : string) : bool :=
  match s with
  | "" => true
  | String c s' => isspace c && all_space s'
  end.

(** ** execution.py *)

Record ExecutionResult := {
  agent_id : string;
  success : bool;
  output : option string;
  error : option string;
  duration : Z;
  iterations : Z
}.

(** A [threading.Thread] as the registry holds it: an opaque handle, of
    which only the name given at construction is modelled. *)
Record Thread := { thread_name : string }.

(** A [threading.Event]: its flag. *)
Definition Event := bool.

Inductive Level := ERROR | WARNING.

Record ExecutionEnvironment := {
  running_agents : gmap string Thread;
  results : gmap string ExecutionResult;
  logger : list (Level * string);
  stop_events : gmap string Event
}.

(** [ExecutionEnvironment.__init__] *)
Definition __init__ : ExecutionEnvironment :=
  {| running_agents := ∅; results := ∅; logger := []; stop_events := ∅ |}.

Definition set_running_agents (f : gmap string Thread → gmap string Thread)
    (e : ExecutionEnvironment) : ExecutionEnvironment :=
  {| running_agents := f (running_agents e); results := results e;
     logger := logger e; stop_events := stop_events e |}.

Definition set_results
    (f : gmap string ExecutionResult → gmap string ExecutionResult)
    (e : ExecutionEnvironment) : ExecutionEnvironment :=
  {| running_agents := running_agents e; results := f (results e);
     logger := logger e; stop_events := stop_events e |}.

Definition set_stop_events (f : gmap string Event → gmap string Event)
    (e : ExecutionEnvironment) : ExecutionEnvironment :=
  {| running_agents := running_agents e; results := results e;
     logger := logger e; stop_events := f (stop_events e) |}.

Definition log (l : Level) (msg : string) (e : ExecutionEnvironment)
    : ExecutionEnvironment :=
  {| running_agents := running_agents e; results := results e;
     logger := logger e ++ [(l, msg)]; stop_events := stop_events e |}.

(** [if key in d: del d[key]] *)
Definition discard {V} (key : string) (d : gmap string V) : gmap string V :=
  match d !! key with
  | Some _ => delete key d
  | None => d
  end.

(** ** Exceptions *)

Inductive exn :=
| RuntimeError (msg : string)
| KeyError (key : string)
| Exception (msg : string).

Inductive Res (A : Type) :=
| Ok (a : A)
| Raise (e : exn).
Arguments Ok {A} a.
Arguments Raise {A} e.

(** A completion callback: what it does when called with the agent and the
    result, [None] when it returns and [Some msg] when it raises
    [Exception(msg)].  It is an observer: it changes neither argument. *)
Definition Callback := Agent → ExecutionResult → option string.

(** One invocation of the callback, with the environment as it stood at the
    moment of the call. *)
Record Call := {
  seen_self : ExecutionEnvironment;
  seen_agent : Agent;
  seen_result : ExecutionResult
}.

(** ** The state of a call *)

(** What a method call of the environment works on: the environment
    ([self]), the agent object it was given, and three pieces of
    bookkeeping: how many times the wall clock has been read, every value
    [agent.state] has taken (one entry per [update_state], as a reader
    polling the record sees them), and the callback invocations made. *)
Record World := {
  self : ExecutionEnvironment;
  agent : Agent;
  ticks : nat;
  history : list AgentState;
  calls : list Call
}.

Definition M (A : Type) : Type := World → World * Res A.

Definition ret {A} (a : A) : M A := λ w, (w, Ok a).

Definition bind {A B} (m : M A) (k : A → M B) : M B := λ w,
  match m w with
  | (w', Ok a) => k a w'
  | (w', Raise e) => (w', Raise e)
  end.

Definition raise {A} (e : exn) : M A := λ w, (w, Raise e).

(** [try: body / except Exception as e: handler]; every exception of the
    model is an [Exception]. *)
Definition try_except {A} (body : M A) (handler : exn → M A) : M A := λ w,
  match body w with
  | (w', Ok a) => (w', Ok a)
  | (w', Raise e) => handler e w'
  end.

Notation "x <- m ;; k" := (bind m (λ x, k))
  (at level 100, m at next level, right associativity,
   format "'[v' x  <-  m  ;;  '/' k ']'").
Notation "m ;;; k" := (bind m (λ _, k))
  (at level 100, right associativity,
   format "'[v' m  ;;;  '/' k ']'").

Definition gets {A} (f : World → A) : M A := λ w, (w, Ok (f w)).

Definition modify_self (f : ExecutionEnvironment → ExecutionEnvironment)
    : M unit := λ w,
  ({| self := f (self w); agent := agent w; ticks := ticks w;
      history := history w; calls := calls w |}, Ok tt).

(** ** Sample inputs *)

Definition sample_config (n : Z) : AgentConfig :=
  {| name := "TestAgent"; description := None; agent_type := "general";
     parameters := ∅; capabilities := []; model := None;
     max_iterations := n; timeout := 300 |}.

(** [Agent(id=..., config=AgentConfig(name="TestAgent", max_iterations=n),
    code=...)], created at time 0. *)
Definition sample_agent (i c : string) (n : Z) : Agent :=
  {| id := i; config := sample_config n; state := AgentState_default;
     code := c; created_at := 0%Z; updated_at := 0%Z |}.

(** The agent "a" with code "x" and a ceiling of 5, freshly created. *)
Definition agent_a : Agent := sample_agent "a" "x" 5.

(** An agent created without code: [code] is left at its default, the
    empty string. *)
Definition agent_blank : Agent := sample_agent "b" "" 5.

(** Two spaces and a tab. *)
Definition spaces_and_tab : string :=
  "  " +:+ String (Ascii.ascii_of_nat 9) "".

Definition fresh_world (a : Agent) : World :=
  {| self := __init__; agent := a; ticks := 0; history := []; calls := [] |}.

(** A clock that advances by a tenth of a second between two readings. *)
Definition sample_now (n : nat) : datetime := (Z.of_nat n * 100000)%Z.

(** [repr] for the keys of the samples, which need no escaping. *)
Definition sample_repr (s : string) : string := "'" +:+ s +:+ "'".

Definition never_set : nat → bool := λ _, false.
Definition always_set : nat → bool := λ _, true.
Definition no_fault : nat → option string := λ _, None.
Definition fault_at (k : nat) (msg : string) : nat → option string :=
  λ i, if decide (i = k) then Some msg else None.

Section Execution.

(** The wall clock: [now n] is what the [n]-th evaluation of
    [datetime.now()] returns. *)
Variable now : nat → datetime.

(** [repr] of a [str], as [str(KeyError(key))] prints the key. *)
Variable repr : string → string.

(** The work of one step.  The source stands in for it with
    [time.sleep(0.1)], which is [work := λ _, None]; [work i = Some msg] is
    a step [i] (counted from 0) whose work raises [Exception(msg)]. *)
Variable work : nat → option string.

(** [str(e)] *)
Definition str (e : exn) : string :=
  match e with
  | RuntimeError msg => msg
  | KeyError key => repr key
  | Exception msg => msg
  end.

(** [datetime.now()] *)
Definition datetime_now : M datetime := λ w,
  ({| self := self w; agent := agent w; ticks := S (ticks w);
      history := history w; calls := calls w |}, Ok (now (ticks w))).

(** [Agent.update_state] *)
Definition update_state (kwargs : list kwarg) : M unit := λ w,
  let st := foldl setattr (state (agent w)) kwargs in
  ({| self := self w;
      agent := with_state st (now (ticks w)) (agent w);
      ticks := S (ticks w);
      history := history w ++ [st];
      calls := calls w |}, Ok tt).

(** [Agent.reset] *)
Definition reset : M unit := λ w,
  ({| self := self w;
      agent := with_state AgentState_default (now (ticks w)) (agent w);
      ticks := S (ticks w);
      history := history w ++ [AgentState_default];
      calls := calls w |}, Ok tt).

(** [self.logger.error(msg)] and [self.logger.warning(msg)] *)
Definition logger_error (msg : string) : M unit := modify_self (log ERROR msg).

(** [ExecutionEnvironment.execute_agent].  [thread.start()] changes nothing
    here: what the started thread does is [_run_agent], a transition of its
    own. *)
Definition execute_agent (callback : option Callback) : M string :=
  a <- gets agent ;;
  if is_running a then
    raise (RuntimeError ("Agent " +:+ id a +:+ " is already running"))
  else
    let stop_event : Event := false in
    modify_self (set_stop_events <[id a := stop_event]>) ;;;
    let thread := {| thread_name := "agent-" +:+ id a |} in
    modify_self (set_running_agents <[id a := thread]>) ;;;
    t <- datetime_now ;;
    update_state [kw_status "running"; kw_start_time (Some t);
                  kw_iteration_count 0] ;;;
    ret (id a).

(** [ExecutionEnvironment.get_result] *)
Definition get_result (e : ExecutionEnvironment) (agent_id : string)
    : option ExecutionResult :=
  results e !! agent_id.

(** [ExecutionEnvironment.is_running] *)
Definition env_is_running (e : ExecutionEnvironment) (agent_id : string)
    : bool :=
  bool_decide (is_Some (running_agents e !! agent_id)).

(** The simulated work of step [i]. *)
Definition time_sleep (i : nat) : M unit :=
  match work i with
  | None => ret tt
  | Some msg => raise (Exception msg)
  end.

(** The loop [for i in range(max_iterations)] of [_execute_agent_code],
    with [n] iterations left and [i] the next index; [Some out] when the
    body returned [out] from inside the loop.  [stop_event i] is what
    [stop_event.is_set()] answers at the check of iteration [i]. *)
Fixpoint for_range (stop_event : nat → bool) (n i : nat)
    : M (option string) :=
  match n with
  | O => ret None
  | S n' =>
      if stop_event i then
        ret (Some ("Execution stopped at iteration " +:+ pretty i))
      else
        update_state [kw_iteration_count (Z.of_nat i + 1)] ;;;
        time_sleep i ;;;
        for_range stop_event n' (S i)
  end.

(** [ExecutionEnvironment._execute_agent_code] *)
Definition _execute_agent_code (stop_event : nat → bool) : M string :=
  a <- gets agent ;;
  if bool_decide (strip (code a) = "") then ret "No code to execute"
  else
    let max_iterations := max_iterations (config a) in
    r <- for_range stop_event (Z.to_nat max_iterations) 0 ;;
    match r with
    | Some out => ret out
    | None =>
        ret ("Agent executed successfully for " +:+ pretty max_iterations
             +:+ " iterations")
    end.

(** [callback(agent, result)] *)
Definition invoke (callback : Callback) (result : ExecutionResult)
    : M unit := λ w,
  let w' := {| self := self w; agent := agent w; ticks := ticks w;
               history := history w;
               calls := calls w ++ [{| seen_self := self w;
                                       seen_agent := agent w;
                                       seen_result := result |}] |} in
  match callback (agent w) result with
  | None => (w', Ok tt)
  | Some msg => (w', Raise (Exception msg))
  end.

(** The [try] / [except] part of [_run_agent]: the result as the [finally]
    block finds it.  Nothing after the call of [_execute_agent_code] can
    raise, so the handler always starts from the initial [result]. *)
Definition _run_agent_try (stop_event : nat → bool) : M ExecutionResult :=
  a <- gets agent ;;
  let result := {| agent_id := id a; success := false; output := None;
                   error := None; duration := 0; iterations := 0 |} in
  try_except
    (output <- _execute_agent_code stop_event ;;
     a' <- gets agent ;;
     let result := {| agent_id := agent_id result; success := true;
                      output := Some output; error := error result;
                      duration := duration result;
                      iterations := iteration_count (state a') |} in
     t <- datetime_now ;;
     update_state [kw_status "completed"; kw_end_time (Some t)] ;;;
     ret result)
    (λ e,
     let error_msg := str e in
     logger_error ("Agent " +:+ id a +:+ " failed: " +:+ error_msg) ;;;
     let result := {| agent_id := agent_id result; success := success result;
                      output := output result; error := Some error_msg;
                      duration := duration result;
                      iterations := iterations result |} in
     t <- datetime_now ;;
     update_state [kw_status "error"; kw_error_message (Some error_msg);
                   kw_end_time (Some t)] ;;;
     ret result).

(** [result.duration = ...] *)
Definition with_duration (d : Z) (r : ExecutionResult) : ExecutionResult :=
  {| agent_id := agent_id r; success := success r; output := output r;
     error := error r; duration := d; iterations := iterations r |}.

(** The [finally] block of [_run_agent]. *)
Definition _run_agent_finally (callback : option Callback)
    (start_time : datetime) (result : ExecutionResult) : M unit :=
  end_time <- datetime_now ;;
  let result := with_duration (end_time - start_time) result in
  a <- gets agent ;;
  modify_self (set_results <[id a := result]>) ;;;
  modify_self (set_running_agents (discard (id a))) ;;;
  modify_self (set_stop_events (discard (id a))) ;;;
  match callback with
  | Some cb =>
      try_except (invoke cb result)
        (λ e, logger_error ("Callback failed for agent " +:+ id a +:+ ": "
                            +:+ str e))
  | None => ret tt
  end.

(** [ExecutionEnvironment._run_agent]: one run of an execution unit. *)
Definition _run_agent (callback : option Callback) (stop_event : nat → bool)
    : M unit :=
  start_time <- datetime_now ;;
  result <- _run_agent_try stop_event ;;
  _run_agent_finally callback start_time result.

(** What the unit of a thread does to the environment while a caller is
    blocked in [thread.join(timeout)], together with the answer of
    [thread.is_alive()] once the wait is over. *)
Definition Join : Type :=
  Thread → Z → ExecutionEnvironment → ExecutionEnvironment * bool.

(** [ExecutionEnvironment.stop_agent] *)
Definition stop_agent (join : Join) (agent_id : string)
    (e : ExecutionEnvironment) : ExecutionEnvironment * Res bool :=
  match running_agents e !! agent_id with
  | None => (e, Ok false)
  | Some thread =>
      let e1 := match stop_events e !! agent_id with
                | Some _ => set_stop_events <[agent_id := true]> e
                | None => e
                end in
      let '(e2, is_alive) := join thread 5%Z e1 in
      if is_alive then
        (log WARNING ("Agent " +:+ agent_id +:+ " did not stop gracefully") e2,
         Ok false)
      else
        match running_agents e2 !! agent_id with
        | None => (e2, Raise (KeyError agent_id))
        | Some _ =>
            let e3 := set_running_agents (delete agent_id) e2 in
            (set_stop_events (discard agent_id) e3, Ok true)
        end
  end.

(** ** The unit seen from a blocked caller *)

Definition with_self (e : ExecutionEnvironment) (w : World) : World :=
  {| self := e; agent := agent w; ticks := ticks w; history := history w;
     calls := calls w |}.

Definition focus (a : Agent) (w : World) : World :=
  {| self := self w; agent := a; ticks := ticks w; history := history w;
     calls := calls w |}.

(** The unit does not reach the end of [_run_agent] before the timeout, and
    nothing it does meanwhile shows in the environment. *)
Definition unit_still_running : Join := λ _ _ e, (e, true).

(** The unit, working on the agent of [u], runs [_run_agent] to its end
    before the timeout. *)
Definition unit_finishes (callback : option Callback)
    (stop_event : nat → bool) (u : World) : Join := λ _ _ e,
  (self (fst (_run_agent callback stop_event (with_self e u))), false).

(** ** Histories of an environment *)

(** What happens to an environment, one action at a time: a caller executes
    an agent, a unit runs to its end, or a caller stops an agent id while
    the unit either stays alive ([None]) or finishes within the wait. *)
Inductive action :=
| act_execute (a : Agent) (callback : option Callback)
| act_run (a : Agent) (callback : option Callback)
    (stop_event : nat → bool)
| act_stop (agent_id : string)
    (finishing : option (Agent * option Callback * (nat → bool))).

Definition perform (w : World) (act : action) : World :=
  match act with
  | act_execute a callback => fst (execute_agent callback (focus a w))
  | act_run a callback stop_event =>
      fst (_run_agent callback stop_event (focus a w))
  | act_stop agent_id None =>
      with_self (fst (stop_agent unit_still_running agent_id (self w))) w
  | act_stop agent_id (Some (a, callback, stop_event)) =>
      with_self
        (fst (stop_agent (unit_finishes callback stop_event (focus a w))
                agent_id (self w))) w
  end.

(** The action brings a run of the agent [agent_id] to its end. *)
Definition completes (agent_id : string) (act : action) : Prop :=
  match act with
  | act_execute _ _ => False
  | act_run a _ _ => id a = agent_id
  | act_stop _ None => False
  | act_stop _ (Some (a, _, _)) => id a = agent_id
  end.

(** A complete run: [execute_agent], then the unit it started. *)
Definition run (callback : option Callback) (stop_event : nat → bool)
    : M unit :=
  execute_agent callback ;;;
  _run_agent callback stop_event.

(** ** What a unit leaves alone *)

(** The loop of a unit touches neither the environment nor the callback
    record, nor the identity, configuration and code of its agent; the
    clock only moves forward. *)
Definition unit_frame (w w' : World) : Prop :=
  self w' = self w ∧ calls w' = calls w ∧
  id (agent w') = id (agent w) ∧ config (agent w') = config (agent w) ∧
  code (agent w') = code (agent w) ∧ (ticks w ≤ ticks w')%nat.

(** ** Blank code *)

Lemma lstrip_all_space (s : string) : all_space s = true → lstrip s = "".
Proof.
  induction s as [|c s IH]; simpl; [done|].
  destruct (isspace c); simpl; [exact IH | discriminate].
Qed.

Lemma rstrip_empty (s : string) : rstrip s = "" → all_space s = true.
Proof.
  induction s as [|c s IH]; simpl; [done|].
  destruct (rstrip s) as [|c' r]; [|discriminate].
  destruct (isspace c); [intros _; simpl; by apply IH | discriminate].
Qed.

Lemma lstrip_head (s : string) :
  lstrip s = "" ∨ ∃ c r, lstrip s = String c r ∧ isspace c = false.
Proof.
  induction s as [|c s IH]; simpl; [by left|].
  destruct (isspace c) eqn:Hc; [exact IH|].
  right. by exists c, s.
Qed.

Lemma lstrip_empty (s : string) : lstrip s = "" → all_space s = true.
Proof.
  induction s as [|c s IH]; simpl; [done|].
  destruct (isspace c); simpl; [exact IH | discriminate].
Qed.

(** The code is blank for [strip] exactly when all its characters are
    white space. *)
Lemma strip_blank (s : string) : strip s = "" ↔ all_space s = true.
Proof.
  unfold strip. split.
  - intros H. destruct (lstrip_head s) as [E|(c & r & E & Hc)].
    + by apply lstrip_empty.
    + rewrite E in H. apply rstrip_empty in H. simpl in H.
      rewrite Hc in H. discriminate.
  - intros H. by rewrite lstrip_all_space.
Qed.

(** ** The frame of the loop *)

Lemma unit_frame_refl (w : World) : unit_frame w w.
Proof. by repeat split. Qed.

Lemma unit_frame_trans (w1 w2 w3 : World) :
  unit_frame w1 w2 → unit_frame w2 w3 → unit_frame w1 w3.
Proof.
  intros (?&?&?&?&?&?) (?&?&?&?&?&?). repeat split; try congruence. lia.
Qed.

Lemma update_state_frame (kwargs : list kwarg) (w : World) :
  unit_frame w (fst (update_state kwargs w)).
Proof. repeat split. simpl. lia. Qed.

(** One iteration of the loop, unfolded. *)
Lemma for_range_S (stop_event : nat → bool) (n i : nat) (w : World) :
  for_range stop_event (S n) i w =
  if stop_event i then
    (w, Ok (Some ("Execution stopped at iteration " +:+ pretty i)))
  else
    let w1 := fst (update_state [kw_iteration_count (Z.of_nat i + 1)] w) in
    match work i with
    | Some msg => (w1, Raise (Exception msg))
    | None => for_range stop_event n (S i) w1
    end.
Proof.
  simpl. destruct (stop_event i); [done|].
  unfold bind at 1. simpl. unfold bind at 1, time_sleep.
  by destruct (work i).
Qed.

Lemma for_range_frame (stop_event : nat → bool) (n i : nat) (w : World) :
  unit_frame w (fst (for_range stop_event n i w)).
Proof.
  revert i w. induction n as [|n IH]; intros i w.
  - apply unit_frame_refl.
  - rewrite for_range_S. destruct (stop_event i); [apply unit_frame_refl|].
    cbv zeta. destruct (work i) as [msg|].
    + apply update_state_frame.
    + eapply unit_frame_trans; [apply update_state_frame | apply IH].
Qed.

Lemma _execute_agent_code_frame (stop_event : nat → bool) (w : World) :
  unit_frame w (fst (_execute_agent_code stop_event w)).
Proof.
  unfold _execute_agent_code, bind, gets. simpl.
  case_bool_decide; [apply unit_frame_refl|].
  pose proof (for_range_frame stop_event
    (Z.to_nat (max_iterations (config (agent w)))) 0 w) as HF.
  destruct (for_range _ _ _ w) as [w' [[out|]|e]]; exact HF.
Qed.

(** ** The loop, case by case *)

(** Every remaining iteration is neither stopped nor faulting: the loop
    runs to its end and the counter reads the last index plus one. *)
Lemma for_range_done (stop_event : nat → bool) (n i : nat) (w : World) :
  (∀ j, i ≤ j < i + n → stop_event j = false ∧ work j = None) →
  ∃ w', for_range stop_event n i w = (w', Ok None) ∧
        (n = 0 → w' = w) ∧
        (0 < n → iteration_count (state (agent w')) = Z.of_nat (i + n)).
Proof.
  revert i w. induction n as [|n IH]; intros i w Hclean.
  - exists w. split; [done|]. split; [done | lia].
  - destruct (Hclean i ltac:(lia)) as [Hs Hw].
    rewrite for_range_S, Hs, Hw. cbv zeta.
    destruct (IH (S i) (fst (update_state
      [kw_iteration_count (Z.of_nat i + 1)] w))) as (w' & E & H0 & Hn).
    { intros j Hj. apply Hclean. lia. }
    exists w'. split; [exact E|]. split; [lia|].
    intros _. destruct n as [|n].
    + rewrite (H0 eq_refl). simpl. lia.
    + rewrite Hn; lia.
Qed.

(** The counter never goes down along the updates of the loop. *)
Lemma for_range_history (stop_event : nat → bool) (n i : nat) (w : World) :
  (iteration_count (state (agent w)) ≤ Z.of_nat i + 1)%Z →
  ∃ hs, history (fst (for_range stop_event n i w)) = history w ++ hs ∧
        Sorted Z.le
          (iteration_count (state (agent w)) :: map iteration_count hs ++
           [iteration_count (state (agent (fst (for_range stop_event n i w))))]).
Proof.
  revert i w. induction n as [|n IH]; intros i w Hle.
  - exists []. rewrite app_nil_r. split; [done|]. simpl.
    repeat constructor. lia.
  - rewrite for_range_S. destruct (stop_event i).
    { exists []. rewrite app_nil_r. split; [done|].
      repeat constructor. simpl. lia. }
    cbv zeta. set (w1 := fst (update_state _ w)).
    assert (Hw1 : history w1 = history w ++ [state (agent w1)]) by done.
    assert (Hc1 : iteration_count (state (agent w1)) = (Z.of_nat i + 1)%Z)
      by done.
    destruct (work i) as [msg|].
    + exists [state (agent w1)]. split; [exact Hw1|]. simpl.
      repeat constructor; simpl; lia.
    + destruct (IH (S i) w1) as (hs & Hh & Hsorted); [lia|].
      exists (state (agent w1) :: hs). split.
      * rewrite Hh, Hw1. by rewrite <- app_assoc.
      * simpl. constructor; [exact Hsorted|]. constructor. lia.
Qed.

(** ** The body of a run, case by case *)

Lemma _execute_agent_code_blank (stop_event : nat → bool) (w : World) :
  strip (code (agent w)) = "" →
  _execute_agent_code stop_event w = (w, Ok "No code to execute").
Proof.
  intros Hblank. unfold _execute_agent_code, bind, gets. cbn.
  by rewrite bool_decide_eq_true_2.
Qed.

Lemma _execute_agent_code_stopped_at_once (stop_event : nat → bool)
    (w : World) :
  strip (code (agent w)) ≠ "" →
  (0 < max_iterations (config (agent w)))%Z →
  stop_event 0 = true →
  _execute_agent_code stop_event w =
  (w, Ok "Execution stopped at iteration 0").
Proof.
  intros Hcode Hmax Hstop. unfold _execute_agent_code, bind, gets. cbn.
  rewrite bool_decide_eq_false_2 by done.
  destruct (Z.to_nat (max_iterations (config (agent w)))) as [|n] eqn:En;
    [lia|].
  by rewrite for_range_S, Hstop.
Qed.

Lemma _execute_agent_code_done (stop_event : nat → bool) (w : World) :
  strip (code (agent w)) ≠ "" →
  (0 ≤ max_iterations (config (agent w)))%Z →
  (∀ j, j < Z.to_nat (max_iterations (config (agent w))) →
        stop_event j = false ∧ work j = None) →
  ∃ w1,
    _execute_agent_code stop_event w =
    (w1, Ok ("Agent executed successfully for " +:+
             pretty (max_iterations (config (agent w))) +:+ " iterations")) ∧
    (max_iterations (config (agent w)) = 0%Z → w1 = w) ∧
    ((0 < max_iterations (config (agent w)))%Z →
     iteration_count (state (agent w1)) = max_iterations (config (agent w))).
Proof.
  intros Hcode Hmax Hclean. unfold _execute_agent_code, bind, gets. cbn.
  rewrite bool_decide_eq_false_2 by done.
  destruct (for_range_done stop_event
    (Z.to_nat (max_iterations (config (agent w)))) 0 w) as (w1 & E & H0 & Hn).
  { intros j Hj. apply Hclean. lia. }
  rewrite E. exists w1. split; [done|]. split.
  - intros Hz. apply H0. lia.
  - intros Hpos. rewrite Hn; lia.
Qed.

Lemma _execute_agent_code_history (stop_event : nat → bool) (w : World) :
  (iteration_count (state (agent w)) ≤ 1)%Z →
  ∃ hs,
    history (fst (_execute_agent_code stop_event w)) = history w ++ hs ∧
    Sorted Z.le
      (iteration_count (state (agent w)) :: map iteration_count hs ++
       [iteration_count
          (state (agent (fst (_execute_agent_code stop_event w))))]).
Proof.
  intros Hle. unfold _execute_agent_code, bind, gets. cbn.
  case_bool_decide.
  { exists []. rewrite app_nil_r. split; [done|]. cbn.
    repeat constructor. lia. }
  destruct (for_range_history stop_event
    (Z.to_nat (max_iterations (config (agent w)))) 0 w) as (hs & Hh & Hs);
    [simpl; lia|].
  exists hs.
  by destruct (for_range _ _ _ w) as [w1 [[out|]|e]].
Qed.

(** ** The step of the source *)

(** The source's own step is [time.sleep(0.1)], which raises nothing:
    [work i = None] for every [i].  With it the loop never raises, and so
    neither does the body: no run of the source enters the handler of
    [_run_agent] from a step. *)
Lemma for_range_returns (stop_event : nat → bool) (n i : nat) (w : World) :
  (∀ j, work j = None) →
  ∃ w' r, for_range stop_event n i w = (w', Ok r).
Proof.
  intros Hwork. revert i w. induction n as [|n IH]; intros i w.
  - by eexists _, _.
  - rewrite for_range_S. destruct (stop_event i); [by eexists _, _|].
    cbv zeta. rewrite Hwork. apply IH.
Qed.

Lemma _execute_agent_code_returns (stop_event : nat → bool) (w : World) :
  (∀ j, work j = None) →
  ∃ w' out, _execute_agent_code stop_event w = (w', Ok out).
Proof.
  intros Hwork. unfold _execute_agent_code, bind, gets. cbn.
  case_bool_decide; [by eexists _, _|].
  destruct (for_range_returns stop_event
    (Z.to_nat (max_iterations (config (agent w)))) 0 w Hwork)
    as (w' & r & ->).
  destruct r; by eexists _, _.
Qed.

(** ** Starting a run *)

(** What [execute_agent] does to an agent that is not running. *)
Lemma execute_agent_idle (callback : option Callback) (w : World) :
  is_running (agent w) = false →
  ∃ w1,
    execute_agent callback w = (w1, Ok (id (agent w))) ∧
    id (agent w1) = id (agent w) ∧
    config (agent w1) = config (agent w) ∧
    code (agent w1) = code (agent w) ∧
    iteration_count (state (agent w1)) = 0%Z ∧
    history w1 = history w ++ [state (agent w1)] ∧
    calls w1 = calls w ∧
    results (self w1) = results (self w).
Proof.
  intros Hrun. unfold execute_agent, bind, gets. cbn. rewrite Hrun.
  eexists. split; [reflexivity|]. by cbn.
Qed.

Lemma run_idle (callback : option Callback) (stop_event : nat → bool)
    (w : World) :
  is_running (agent w) = false →
  run callback stop_event w =
  _run_agent callback stop_event (fst (execute_agent callback w)).
Proof.
  intros Hrun. unfold run. unfold bind at 1.
  by destruct (execute_agent_idle callback w Hrun) as (w1 & -> & _).
Qed.


(** C1.  [execute_agent] on an agent whose status is running raises the
    RuntimeError that says so and changes nothing: not the agent, not the
    registry of live units, not the stored results.  On any other agent it
    returns the agent's id, having set the status to running, the start
    time to the clock's reading and the iteration count to zero, put an
    unset stop event under the agent's id and registered the unit's thread
    under it; the stored results, the log and the entries of other ids are
    as before. *)
Theorem execute_agent_spec (callback : option Callback) (w : World) :
  if is_running (agent w) then
    execute_agent callback w =
    (w, Raise (RuntimeError
                 ("Agent " +:+ id (agent w) +:+ " is already running")))
  else
    ∃ w',
      execute_agent callback w = (w', Ok (id (agent w))) ∧
      status (state (agent w')) = "running" ∧
      is_running (agent w') = true ∧
      start_time (state (agent w')) = Some (now (ticks w)) ∧
      iteration_count (state (agent w')) = 0%Z ∧
      stop_events (self w') !! id (agent w) = Some false ∧
      running_agents (self w') !! id (agent w) =
        Some {| thread_name := "agent-" +:+ id (agent w) |} ∧
      env_is_running (self w') (id (agent w)) = true ∧
      results (self w') = results (self w) ∧
      logger (self w') = logger (self w) ∧
      (∀ k, k ≠ id (agent w) →
         stop_events (self w') !! k = stop_events (self w) !! k ∧
         running_agents (self w') !! k = running_agents (self w) !! k) ∧
      id (agent w') = id (agent w) ∧
      config (agent w') = config (agent w) ∧
      code (agent w') = code (agent w).
Proof.
  unfold execute_agent, bind, gets. cbn.
  destruct (is_running (agent w)) eqn:Hrun; [done|].
  eexists. split; [reflexivity|]. cbn.
  unfold env_is_running. cbn. rewrite !lookup_insert_eq.
  repeat split; try done.
  all: by rewrite lookup_insert_ne.
Qed.

(** ** One run of a unit *)

(** Runs [_run_agent] symbolically up to the outcome of
    [_execute_agent_code], which [E] names; [F] is what the loop left
    alone. *)
Ltac run_unit w1 r E F :=
  unfold run, _run_agent, _run_agent_try, _run_agent_finally, bind,
    try_except, gets, modify_self, logger_error, invoke;
  cbn -[_execute_agent_code];
  match goal with
  | |- context [_execute_agent_code ?se ?w0] =>
      pose proof (_execute_agent_code_frame se w0) as F;
      destruct (_execute_agent_code se w0) as [w1 r] eqn:E;
      destruct F as (Fself & Fcalls & Fid & Fconfig & Fcode & Fticks);
      simpl in Fself, Fcalls, Fid, Fconfig, Fcode, Fticks
  end.

(** Continues [run_unit] through the [finally] block, by cases on the
    outcome of the loop, on the presence of a callback and on what the
    callback does. *)
Ltac finish_unit r callback :=
  destruct r as [?out|?e]; cbn;
  (destruct callback as [?obs|]; cbn;
   [match goal with
    | |- context [match ?obs ?a ?res with Some _ => _ | None => _ end] =>
        destruct (obs a res) as [?msg|] eqn:?Hobs
    end|]);
  cbn.

Lemma lookup_discard {V} (key : string) (d : gmap string V) :
  discard key d !! key = None.
Proof.
  unfold discard. destruct (d !! key) eqn:E; [apply lookup_delete_eq | done].
Qed.

Lemma lookup_discard_ne {V} (key k : string) (d : gmap string V) :
  key ≠ k → discard key d !! k = d !! k.
Proof.
  intros Hne. unfold discard.
  destruct (d !! key); [by apply lookup_delete_ne | done].
Qed.

(** C2.  On every path through a run of a unit (the loop ran to its end,
    was stopped, or raised) [_run_agent] returns without raising, leaves
    the agent's status at completed or error, never at running, with an end
    time set, and stores under the agent's id a result whose duration is
    the time elapsed between the first and the last reading of the clock;
    the unit is no longer registered. *)
Theorem _run_agent_always_finishes (callback : option Callback)
    (stop_event : nat → bool) (w : World) :
  ∃ w' r,
    _run_agent callback stop_event w = (w', Ok tt) ∧
    (status (state (agent w')) = "completed" ∨
     status (state (agent w')) = "error") ∧
    status (state (agent w')) ≠ "running" ∧
    (ticks w + 4 ≤ ticks w')%nat ∧
    end_time (state (agent w')) = Some (now (ticks w' - 3)) ∧
    get_result (self w') (id (agent w)) = Some r ∧
    agent_id r = id (agent w) ∧
    duration r = (now (ticks w' - 1) - now (ticks w))%Z ∧
    env_is_running (self w') (id (agent w)) = false.
Proof.
  run_unit w1 r E F. finish_unit r callback.
  all: eexists _, _; split; [reflexivity|]; cbn.
  all: rewrite ?Fid, ?Fself; unfold get_result, env_is_running; cbn.
  all: rewrite lookup_insert_eq, lookup_discard.
  all: rewrite ?Nat.sub_0_r; repeat split; try done; try lia; auto.
Qed.

(** A complete run of an agent that is not running: names what
    [execute_agent] left in [w1]. *)
Ltac start_run callback w Hrun w1 :=
  rewrite run_idle by done;
  destruct (execute_agent_idle callback w Hrun)
    as (w1 & -> & Hid1 & Hconfig1 & Hcode1 & Hcount1 & Hhist1 & Hcalls1 &
        Hres1);
  cbn [fst].

(** Applies the case lemma [lem] to the call of [_execute_agent_code] that
    [E] names. *)
Ltac body_case lem E :=
  match type of E with
  | _execute_agent_code ?se ?w0 = _ =>
      let H := fresh "Hbody" in
      pose proof (lem se w0) as H; cbn [agent] in H;
      repeat match goal with
        | Hc : code (agent _) = code (agent _) |- _ => rewrite Hc in H
        | Hc : config (agent _) = config (agent _) |- _ => rewrite Hc in H
        end;
      revert H
  end.

(** Closes a goal about the world a unit leaves, once the outcome of the
    loop is known. *)
Ltac close_unit callback :=
  cbn;
  (destruct callback as [?obs|]; cbn;
   [match goal with
    | |- context [match ?obs ?a ?res with Some _ => _ | None => _ end] =>
        destruct (obs a res) as [?msg|] eqn:?Hobs
    end|]);
  cbn; eexists _, _; (split; [reflexivity|]); cbn;
  unfold get_result; cbn;
  repeat match goal with
    | Hi : id (agent _) = id (agent _) |- _ => rewrite Hi
    end;
  rewrite ?lookup_insert_eq.

(** C6 (amended).  An agent that is not running, whose code is not blank
    and whose ceiling is not negative, is run with no step stopped and no
    step faulting: afterwards its iteration count is the ceiling, its
    status is completed, and the stored result has success set, no error
    text, the ceiling as its iteration count and the summary as output. *)
Theorem run_reaches_ceiling (callback : option Callback)
    (stop_event : nat → bool) (w : World) :
  is_running (agent w) = false →
  strip (code (agent w)) ≠ "" →
  (0 ≤ max_iterations (config (agent w)))%Z →
  (∀ j, j < Z.to_nat (max_iterations (config (agent w))) →
        stop_event j = false ∧ work j = None) →
  ∃ w' r,
    run callback stop_event w = (w', Ok tt) ∧
    iteration_count (state (agent w')) = max_iterations (config (agent w)) ∧
    status (state (agent w')) = "completed" ∧
    get_result (self w') (id (agent w)) = Some r ∧
    success r = true ∧
    error r = None ∧
    iterations r = max_iterations (config (agent w)) ∧
    output r = Some ("Agent executed successfully for " +:+
                     pretty (max_iterations (config (agent w))) +:+
                     " iterations").
Proof.
  intros Hrun Hcode Hmax Hclean. start_run callback w Hrun w1.
  run_unit w2 r E F. body_case _execute_agent_code_done E.
  intros (w2' & E' & H0 & Hn); try done.
  rewrite E' in E. injection E as <- <-.
  assert (Hcount : iteration_count (state (agent w2'))
                   = max_iterations (config (agent w))).
  { destruct (decide (max_iterations (config (agent w)) = 0%Z)) as [Hz|Hz].
    - rewrite (H0 Hz). cbn. congruence.
    - apply Hn. lia. }
  close_unit callback.
  all: by rewrite Hcount.
Qed.

(** C5 (amended).  An agent that is not running, whose code is not blank
    and whose ceiling is positive, is run and the stop event is found set
    at the first check, before any step: the run counts as completed.  The
    stored result has success set, the output
    "Execution stopped at iteration 0", no error text and iteration
    count 0; the agent's status ends as completed. *)
Theorem run_stopped_before_first_step (callback : option Callback)
    (stop_event : nat → bool) (w : World) :
  is_running (agent w) = false →
  strip (code (agent w)) ≠ "" →
  (0 < max_iterations (config (agent w)))%Z →
  stop_event 0 = true →
  ∃ w' r,
    run callback stop_event w = (w', Ok tt) ∧
    get_result (self w') (id (agent w)) = Some r ∧
    success r = true ∧
    output r = Some "Execution stopped at iteration 0" ∧
    error r = None ∧
    iterations r = 0%Z ∧
    status (state (agent w')) = "completed" ∧
    iteration_count (state (agent w')) = 0%Z.
Proof.
  intros Hrun Hcode Hmax Hstop. start_run callback w Hrun w1.
  run_unit w2 r E F. body_case _execute_agent_code_stopped_at_once E.
  intros E'. rewrite E' in E by done. injection E as <- <-.
  close_unit callback.
  all: by rewrite Hcount1.
Qed.

(** C10.  An agent that is not running and whose code is empty or made of
    white space only is run: whatever the ceiling, the stop event and the
    steps' work, the stored result has success set, the output
    "No code to execute", no error text and iteration count 0, and the
    agent's status ends as completed with its count at 0. *)
Theorem run_blank_code (callback : option Callback)
    (stop_event : nat → bool) (w : World) :
  is_running (agent w) = false →
  all_space (code (agent w)) = true →
  ∃ w' r,
    run callback stop_event w = (w', Ok tt) ∧
    get_result (self w') (id (agent w)) = Some r ∧
    success r = true ∧
    output r = Some "No code to execute" ∧
    error r = None ∧
    iterations r = 0%Z ∧
    status (state (agent w')) = "completed" ∧
    iteration_count (state (agent w')) = 0%Z.
Proof.
  intros Hrun Hblank. apply strip_blank in Hblank.
  start_run callback w Hrun w1.
  run_unit w2 r E F. body_case _execute_agent_code_blank E.
  intros E'. rewrite E' in E by done. injection E as <- <-.
  close_unit callback.
  all: by rewrite Hcount1.
Qed.

(** C9.  In a complete run of an agent that is not running, the first value
    the agent's state takes (the one [execute_agent] writes) has iteration
    count 0, and along all the values the state takes from there to the end
    of the unit's run the iteration count never decreases. *)
Theorem run_iteration_count_monotone (callback : option Callback)
    (stop_event : nat → bool) (w : World) :
  is_running (agent w) = false →
  ∃ st hs,
    history (fst (execute_agent callback w)) = history w ++ [st] ∧
    iteration_count st = 0%Z ∧
    history (fst (run callback stop_event w)) = history w ++ st :: hs ∧
    Sorted Z.le (map iteration_count (st :: hs)).
Proof.
  intros Hrun. start_run callback w Hrun w1.
  run_unit w2 r E F.
  match type of E with
  | _execute_agent_code ?se ?w0 = _ =>
      destruct (_execute_agent_code_history se w0) as (hs & Hh & Hsorted);
        [cbn; lia|]
  end.
  rewrite E in Hh, Hsorted. cbn in Hh, Hsorted. rewrite Hcount1 in Hsorted.
  exists (state (agent w1)).
  assert (Hlast : ∀ s : AgentState,
    iteration_count s = iteration_count (state (agent w2)) →
    Sorted Z.le (map iteration_count (state (agent w1) :: hs ++ [s]))).
  { intros s Hs. cbn. rewrite map_app. cbn. by rewrite Hcount1, Hs. }
  destruct r as [out|e]; cbn;
    (destruct callback as [obs|]; cbn;
     [match goal with
      | |- context [match ?obs ?a ?res with Some _ => _ | None => _ end] =>
          destruct (obs a res)
      end|]);
    cbn; rewrite Hh, Hhist1.
  all: eexists (hs ++ [_]); split; [done|]; split; [done|].
  all: split; [by rewrite <- !app_assoc | by apply Hlast].
Qed.

(** ** The callback *)

(** C8.  A unit run with a callback calls it exactly once, with the agent
    and the result, in an environment where that result is already stored
    under the agent's id and the unit is no longer registered (nor its stop
    event).  Whether the callback returns or raises, [_run_agent] returns
    normally and the stored results, the registry and the stop events are
    as the callback saw them; when it raises, the only change is one more
    error record in the log, carrying the callback's message. *)
Theorem _run_agent_calls_back_once (obs : Callback)
    (stop_event : nat → bool) (w : World) :
  ∃ w' c,
    _run_agent (Some obs) stop_event w = (w', Ok tt) ∧
    calls w' = calls w ++ [c] ∧
    seen_agent c = agent w' ∧
    get_result (seen_self c) (id (agent w)) = Some (seen_result c) ∧
    env_is_running (seen_self c) (id (agent w)) = false ∧
    stop_events (seen_self c) !! id (agent w) = None ∧
    results (self w') = results (seen_self c) ∧
    running_agents (self w') = running_agents (seen_self c) ∧
    stop_events (self w') = stop_events (seen_self c) ∧
    logger (self w') =
      logger (seen_self c) ++
      match obs (seen_agent c) (seen_result c) with
      | None => []
      | Some msg =>
          [(ERROR, "Callback failed for agent " +:+ id (agent w) +:+ ": "
                   +:+ msg)]
      end.
Proof.
  run_unit w1 r E F. destruct r as [out|e]; cbn.
  all: match goal with
       | |- context [match ?obs ?a ?res with Some _ => _ | None => _ end] =>
           destruct (obs a res) as [msg|] eqn:Hobs
       end; cbn.
  all: eexists _, _; split; [reflexivity|]; cbn.
  all: rewrite Fcalls; split; [reflexivity|]; cbn.
  all: unfold get_result, env_is_running; cbn.
  all: rewrite Hobs, Fid, lookup_insert_eq, !lookup_discard, ?app_nil_r.
  all: by repeat split.
Qed.

(** Without a callback nothing is called. *)
Lemma _run_agent_no_callback (stop_event : nat → bool) (w : World) :
  calls (fst (_run_agent None stop_event w)) = calls w.
Proof. run_unit w1 r E F. by destruct r as [out|e]. Qed.

(** ** The stored results *)

Lemma execute_agent_results (callback : option Callback) (w : World) :
  results (self (fst (execute_agent callback w))) = results (self w).
Proof.
  unfold execute_agent, bind, gets. cbn. by destruct (is_running (agent w)).
Qed.

Lemma _run_agent_results (callback : option Callback)
    (stop_event : nat → bool) (w : World) :
  ∃ r, results (self (fst (_run_agent callback stop_event w))) =
       <[id (agent w) := r]> (results (self w)).
Proof.
  run_unit w1 r E F. finish_unit r callback.
  all: rewrite Fid, Fself; by eexists.
Qed.

Lemma _run_agent_deregisters (callback : option Callback)
    (stop_event : nat → bool) (w : World) :
  running_agents (self (fst (_run_agent callback stop_event w)))
    !! id (agent w) = None.
Proof.
  run_unit w1 r E F. finish_unit r callback.
  all: rewrite Fid; apply lookup_discard.
Qed.

(** ** Stopping *)

(** No unit is registered under the id: [stop_agent] answers false and
    changes nothing. *)
Lemma stop_agent_not_registered (join : Join) (agent_id : string)
    (e : ExecutionEnvironment) :
  running_agents e !! agent_id = None →
  stop_agent join agent_id e = (e, Ok false).
Proof. intros H. unfold stop_agent. by rewrite H. Qed.

(** X24.  A unit is registered under the id and its thread is still alive
    when the wait of 5 seconds is over, whatever the unit did to the
    environment meanwhile.  [stop_agent] set the stop event of the id, if
    there is one, before it waited; it answers false without raising, and
    to the environment the unit left ([e2]) it only adds the warning to
    the log: it removes nothing from the registry, the stop events or the
    results. *)
Theorem stop_agent_alive_after_wait (join : Join) (agent_id : string)
    (thread : Thread) (e e2 : ExecutionEnvironment) :
  let e1 := match stop_events e !! agent_id with
            | Some _ => set_stop_events <[agent_id := true]> e
            | None => e
            end in
  running_agents e !! agent_id = Some thread →
  join thread 5%Z e1 = (e2, true) →
  (is_Some (stop_events e !! agent_id) →
   stop_events e1 !! agent_id = Some true) ∧
  running_agents e1 = running_agents e ∧
  results e1 = results e ∧
  ∃ e',
    stop_agent join agent_id e = (e', Ok false) ∧
    running_agents e' = running_agents e2 ∧
    stop_events e' = stop_events e2 ∧
    results e' = results e2 ∧
    logger e' =
      logger e2 ++
      [(WARNING, "Agent " +:+ agent_id +:+ " did not stop gracefully")].
Proof.
  cbv zeta. intros Hreg Hjoin. unfold stop_agent. rewrite Hreg, Hjoin.
  split; [|split; [|split]].
  - intros [ev Hev]. rewrite Hev. cbn. apply lookup_insert_eq.
  - by destruct (stop_events e !! agent_id).
  - by destruct (stop_events e !! agent_id).
  - eexists. by repeat split.
Qed.

(** X25.  [stop_agent] answers true only when the thread is dead after the
    wait and the registry still holds the id at that moment; the id is then
    removed from the registry and from the stop events. *)
Lemma stop_agent_true (join : Join) (agent_id : string)
    (e e' : ExecutionEnvironment) :
  stop_agent join agent_id e = (e', Ok true) →
  ∃ thread e1 e2,
    running_agents e !! agent_id = Some thread ∧
    join thread 5%Z e1 = (e2, false) ∧
    is_Some (running_agents e2 !! agent_id) ∧
    running_agents e' !! agent_id = None ∧
    stop_events e' !! agent_id = None.
Proof.
  unfold stop_agent. destruct (running_agents e !! agent_id) as [th|] eqn:H;
    [|discriminate].
  set (e1 := match stop_events e !! agent_id with
             | Some _ => _ | None => _ end).
  destruct (join th 5%Z e1) as [e2 [|]] eqn:Hj; [discriminate|].
  destruct (running_agents e2 !! agent_id) as [th2|] eqn:H2; [|discriminate].
  intros [= <-]. exists th, e1, e2. repeat split; try done.
  - cbn. apply lookup_delete_eq.
  - cbn. apply lookup_discard.
Qed.

(** C3.  A unit is registered under the id of its agent and, once
    [stop_agent] waits for it, runs [_run_agent] to its end within the 5
    seconds: [stop_agent] does not answer true, it raises
    [KeyError(agent_id)], because the unit has removed its own entry from
    the registry and [stop_agent] deletes that entry again without looking. *)
Theorem stop_agent_raises_when_unit_finishes (callback : option Callback)
    (stop_event : nat → bool) (u : World) (thread : Thread)
    (e : ExecutionEnvironment) :
  running_agents e !! id (agent u) = Some thread →
  snd (stop_agent (unit_finishes callback stop_event u) (id (agent u)) e) =
  Raise (KeyError (id (agent u))).
Proof.
  intros H. unfold stop_agent, unit_finishes. rewrite H.
  set (e1 := match stop_events e !! id (agent u) with
             | Some _ => _ | None => _ end).
  pose proof (_run_agent_deregisters callback stop_event (with_self e1 u))
    as Hd.
  cbn [agent with_self] in Hd. by rewrite Hd.
Qed.

(** ** Results over the life of an environment *)

Lemma stop_agent_still_running_results (agent_id : string)
    (e : ExecutionEnvironment) :
  results (fst (stop_agent unit_still_running agent_id e)) = results e.
Proof.
  unfold stop_agent, unit_still_running.
  destruct (running_agents e !! agent_id); [|done].
  by destruct (stop_events e !! agent_id).
Qed.

Lemma stop_agent_finishes_results (callback : option Callback)
    (stop_event : nat → bool) (u : World) (agent_id : string)
    (e : ExecutionEnvironment) (k : string) :
  k ≠ id (agent u) →
  results (fst (stop_agent (unit_finishes callback stop_event u) agent_id e))
    !! k = results e !! k.
Proof.
  intros Hk. unfold stop_agent, unit_finishes.
  destruct (running_agents e !! agent_id); [|done].
  set (e1 := match stop_events e !! agent_id with
             | Some _ => _ | None => _ end).
  assert (He1 : results e1 = results e)
    by (subst e1; by destruct (stop_events e !! agent_id)).
  destruct (_run_agent_results callback stop_event (with_self e1 u))
    as (r & Hr).
  cbn [agent self with_self] in Hr.
  destruct (running_agents _ !! agent_id); cbn [fst results self
    set_stop_events set_running_agents]; rewrite Hr, He1;
    by apply lookup_insert_ne.
Qed.

(** An action that does not bring a run of [agent_id] to its end leaves
    what is stored under [agent_id] as it was. *)
Lemma perform_results (agent_id : string) (w : World) (act : action) :
  ¬ completes agent_id act →
  results (self (perform w act)) !! agent_id = results (self w) !! agent_id.
Proof.
  destruct act as [a cb | a cb se | k [[[a cb] se]|]];
    cbn [perform completes]; intros Hc.
  - by rewrite execute_agent_results.
  - destruct (_run_agent_results cb se (focus a w)) as (r & ->). cbn.
    by apply lookup_insert_ne.
  - cbn [self with_self]. apply stop_agent_finishes_results. cbn. congruence.
  - cbn [self with_self]. by rewrite stop_agent_still_running_results.
Qed.

(** C7.  What [get_result] returns is what was stored: a result put in the
    store under an id is read back under that id unchanged, and after a
    run of a unit [get_result] gives, for the agent's id, the very result
    the run built (the one the [try] part produced, with the duration the
    [finally] block computed).  For an id no run of which has come to its
    end since the environment was created, [get_result] gives [None]. *)
Theorem get_result_round_trip :
  (∀ (e : ExecutionEnvironment) (agent_id : string) (r : ExecutionResult),
     get_result (set_results <[agent_id := r]> e) agent_id = Some r) ∧
  (∀ (callback : option Callback) (stop_event : nat → bool) (w : World),
     ∃ w2 r,
       _run_agent_try stop_event (fst (datetime_now w)) = (w2, Ok r) ∧
       get_result (self (fst (_run_agent callback stop_event w)))
         (id (agent w)) =
       Some (with_duration (now (ticks w2) - now (ticks w)) r)) ∧
  (∀ (acts : list action) (agent_id : string) (w : World),
     self w = __init__ →
     Forall (λ act, ¬ completes agent_id act) acts →
     get_result (self (foldl perform w acts)) agent_id = None).
Proof.
  split; [|split].
  - intros e agent_id r. unfold get_result. cbn. apply lookup_insert_eq.
  - intros callback stop_event w. run_unit w1 r E F.
    finish_unit r callback.
    all: eexists _, _; split; [reflexivity|]; cbn.
    all: unfold get_result; cbn; by rewrite Fid, lookup_insert_eq.
  - intros acts agent_id w Hinit Hacts. unfold get_result.
    assert (H0 : results (self w) !! agent_id = None)
      by (by rewrite Hinit).
    clear Hinit. revert w H0.
    induction Hacts as [|act acts Hact _ IH]; intros w H0; [done|].
    cbn. apply IH. by rewrite perform_results.
Qed.

(** * Further properties of the execution environment *)

(** ** More on the loop *)

(** The stop event is first found set at the check of iteration [i + m],
    after [m] clean iterations: the loop returns the stop message for that
    iteration, and the counter reads the number of iterations done. *)
Lemma for_range_stopped (stop_event : nat → bool) (m n i : nat) (w : World) :
  m < n →
  (∀ j, i ≤ j < i + m → stop_event j = false ∧ work j = None) →
  stop_event (i + m) = true →
  ∃ w', for_range stop_event n i w =
          (w', Ok (Some ("Execution stopped at iteration " +:+
                         pretty (i + m)))) ∧
        (m = 0 → w' = w) ∧
        (0 < m → iteration_count (state (agent w')) = Z.of_nat (i + m)).
Proof.
  revert n i w. induction m as [|m IH]; intros n i w Hmn Hclean Hs;
    (destruct n as [|n]; [lia|]); rewrite for_range_S.
  - rewrite Nat.add_0_r in *. rewrite Hs. exists w.
    split; [done|]. split; [done | lia].
  - destruct (Hclean i ltac:(lia)) as [Hs0 Hw0]. rewrite Hs0, Hw0. cbv zeta.
    destruct (IH n (S i) (fst (update_state
      [kw_iteration_count (Z.of_nat i + 1)] w))) as (w' & E & H0 & Hn).
    + lia.
    + intros j Hj. apply Hclean. lia.
    + by replace (S i + m) with (i + S m) by lia.
    + replace (S i + m) with (i + S m) in E by lia.
      exists w'. split; [exact E|]. split; [lia|]. intros _.
      destruct m as [|m].
      * rewrite (H0 eq_refl). cbn. lia.
      * rewrite Hn; lia.
Qed.

(** Whatever the stop event and the work do, the loop leaves the counter
    where it was or at the number of an iteration it started. *)
Lemma for_range_bound (stop_event : nat → bool) (n i : nat) (w : World) :
  let c' := iteration_count (state (agent (fst (for_range stop_event n i w))))
  in c' = iteration_count (state (agent w)) ∨
     (Z.of_nat i + 1 ≤ c' ≤ Z.of_nat (i + n))%Z.
Proof.
  cbv zeta. revert i w. induction n as [|n IH]; intros i w.
  - by left.
  - rewrite for_range_S. destruct (stop_event i); [by left|]. cbv zeta.
    destruct (work i) as [msg|].
    + right. cbn. lia.
    + destruct (IH (S i) (fst (update_state
        [kw_iteration_count (Z.of_nat i + 1)] w))) as [-> | H].
      * right. cbn. lia.
      * right. lia.
Qed.

(** The loop writes the iteration count and nothing else of the state. *)
Definition same_run_state (s s' : AgentState) : Prop :=
  status s' = status s ∧ current_task s' = current_task s ∧
  start_time s' = start_time s ∧ end_time s' = end_time s ∧
  error_message s' = error_message s.

Lemma for_range_run_state (stop_event : nat → bool) (n i : nat) (w : World) :
  same_run_state (state (agent w))
    (state (agent (fst (for_range stop_event n i w)))).
Proof.
  revert i w. induction n as [|n IH]; intros i w.
  - by repeat split.
  - rewrite for_range_S. destruct (stop_event i); [by repeat split|].
    cbv zeta. destruct (work i) as [msg|]; [by repeat split|].
    destruct (IH (S i) (fst (update_state
      [kw_iteration_count (Z.of_nat i + 1)] w))) as (?&?&?&?&?).
    by repeat split.
Qed.

Lemma _execute_agent_code_run_state (stop_event : nat → bool) (w : World) :
  same_run_state (state (agent w))
    (state (agent (fst (_execute_agent_code stop_event w)))).
Proof.
  unfold _execute_agent_code, bind, gets. cbn.
  case_bool_decide; [by repeat split|].
  pose proof (for_range_run_state stop_event
    (Z.to_nat (max_iterations (config (agent w)))) 0 w) as Hs.
  by destruct (for_range _ _ _ w) as [w' [[out|]|e]].
Qed.

Lemma _execute_agent_code_bound (stop_event : nat → bool) (w : World) :
  let c' := iteration_count
              (state (agent (fst (_execute_agent_code stop_event w)))) in
  c' = iteration_count (state (agent w)) ∨
  (1 ≤ c' ≤ max_iterations (config (agent w)))%Z.
Proof.
  cbv zeta. unfold _execute_agent_code, bind, gets. cbn.
  case_bool_decide; [by left|].
  pose proof (for_range_bound stop_event
    (Z.to_nat (max_iterations (config (agent w)))) 0 w) as Hb.
  cbv zeta in Hb.
  destruct (for_range _ _ _ w) as [w' [[out|]|e]]; cbn in *;
    (destruct Hb as [Hb|Hb]; [by left | right; lia]).
Qed.

Lemma _execute_agent_code_stopped (stop_event : nat → bool) (w : World)
    (k : nat) :
  strip (code (agent w)) ≠ "" →
  (Z.of_nat k < max_iterations (config (agent w)))%Z →
  (∀ j, j < k → stop_event j = false ∧ work j = None) →
  stop_event k = true →
  ∃ w1,
    _execute_agent_code stop_event w =
    (w1, Ok ("Execution stopped at iteration " +:+ pretty k)) ∧
    (k = 0 → w1 = w) ∧
    (0 < k → iteration_count (state (agent w1)) = Z.of_nat k).
Proof.
  intros Hcode Hmax Hclean Hstop.
  unfold _execute_agent_code, bind, gets. cbn.
  rewrite bool_decide_eq_false_2 by done.
  destruct (for_range_stopped stop_event k
    (Z.to_nat (max_iterations (config (agent w)))) 0 w)
    as (w1 & E & H0 & Hn); [lia | intros j Hj; apply Hclean; lia | done |].
  rewrite E. by exists w1.
Qed.

(** ** One agent, several calls *)

(** X1.  Once [execute_agent] has started an agent, a second
    [execute_agent] on it raises the RuntimeError and changes nothing,
    whatever callback it is given. *)
Theorem execute_agent_twice (callback callback' : option Callback)
    (w : World) :
  is_running (agent w) = false →
  execute_agent callback' (fst (execute_agent callback w)) =
  (fst (execute_agent callback w),
   Raise (RuntimeError ("Agent " +:+ id (agent w) +:+ " is already running"))).
Proof.
  intros Hrun. unfold execute_agent, bind, gets. cbn. by rewrite Hrun.
Qed.

Lemma _run_agent_agent (callback : option Callback)
    (stop_event : nat → bool) (w : World) :
  let w' := fst (_run_agent callback stop_event w) in
  is_running (agent w') = false ∧
  id (agent w') = id (agent w) ∧
  config (agent w') = config (agent w) ∧
  code (agent w') = code (agent w).
Proof.
  cbv zeta. run_unit w1 r E F. finish_unit r callback.
  all: by rewrite Fid, Fconfig, Fcode.
Qed.

(** X2.  Whatever way a unit's run ended, [execute_agent] accepts the agent
    again: it returns the id, with the agent running anew from count 0 and
    registered; the result of the finished run stays in the store. *)
Theorem execute_agent_after_run (callback callback' : option Callback)
    (stop_event : nat → bool) (w : World) :
  let w2 := fst (_run_agent callback stop_event w) in
  ∃ w3,
    execute_agent callback' w2 = (w3, Ok (id (agent w))) ∧
    is_running (agent w3) = true ∧
    iteration_count (state (agent w3)) = 0%Z ∧
    env_is_running (self w3) (id (agent w)) = true ∧
    stop_events (self w3) !! id (agent w) = Some false ∧
    is_Some (get_result (self w3) (id (agent w))) ∧
    get_result (self w3) (id (agent w)) = get_result (self w2) (id (agent w)).
Proof.
  cbv zeta.
  destruct (_run_agent_agent callback stop_event w) as (Hrun & Hid & _).
  destruct (_run_agent_results callback stop_event w) as (r & Hr).
  generalize dependent (fst (_run_agent callback stop_event w)).
  intros w2 Hrun Hid Hr.
  unfold execute_agent, bind, gets. cbn. rewrite Hrun.
  eexists. split; [by rewrite Hid|]. cbn.
  unfold env_is_running, get_result. cbn.
  rewrite !lookup_insert_eq, Hr, lookup_insert_eq.
  by repeat split.
Qed.

(** X3.  An agent that is not running, with code that is not blank, is run
    and the stop event is first found set at the check of iteration [k],
    below the ceiling, after [k] clean steps: the run counts as completed,
    with the output "Execution stopped at iteration k" and [k] as the count
    of both the agent and the stored result. *)
Theorem run_stopped_at (callback : option Callback)
    (stop_event : nat → bool) (w : World) (k : nat) :
  is_running (agent w) = false →
  strip (code (agent w)) ≠ "" →
  (Z.of_nat k < max_iterations (config (agent w)))%Z →
  (∀ j, j < k → stop_event j = false ∧ work j = None) →
  stop_event k = true →
  ∃ w' r,
    run callback stop_event w = (w', Ok tt) ∧
    get_result (self w') (id (agent w)) = Some r ∧
    success r = true ∧
    output r = Some ("Execution stopped at iteration " +:+ pretty k) ∧
    error r = None ∧
    iterations r = Z.of_nat k ∧
    status (state (agent w')) = "completed" ∧
    iteration_count (state (agent w')) = Z.of_nat k.
Proof.
  intros Hrun Hcode Hmax Hclean Hstop. start_run callback w Hrun w1.
  run_unit w2 r E F. body_case _execute_agent_code_stopped E.
  intros Hbody. destruct (Hbody k) as (w2' & E' & H0 & Hn); try done.
  rewrite E' in E. injection E as <- <-.
  assert (Hcount : iteration_count (state (agent w2')) = Z.of_nat k).
  { destruct k as [|k]; [rewrite (H0 eq_refl); cbn; lia | apply Hn; lia]. }
  close_unit callback.
  all: by rewrite Hcount.
Qed.

(** X4.  However a complete run goes (stopped, faulting or neither), the
    agent's iteration count ends between 0 and the ceiling (0 for a
    negative ceiling), and the stored result counts no more iterations than
    the agent does. *)
Theorem run_iteration_count_bounded (callback : option Callback)
    (stop_event : nat → bool) (w : World) :
  is_running (agent w) = false →
  ∃ w' r,
    run callback stop_event w = (w', Ok tt) ∧
    (0 ≤ iteration_count (state (agent w'))
       ≤ Z.max 0 (max_iterations (config (agent w))))%Z ∧
    get_result (self w') (id (agent w)) = Some r ∧
    (0 ≤ iterations r ≤ iteration_count (state (agent w')))%Z.
Proof.
  intros Hrun. start_run callback w Hrun w1.
  run_unit w2 r E F.
  match type of E with
  | _execute_agent_code ?se ?w0 = _ =>
      pose proof (_execute_agent_code_bound se w0) as Hb
  end.
  cbv zeta in Hb. rewrite E in Hb. cbn in Hb.
  rewrite Hcount1, Hconfig1 in Hb.
  destruct r as [out|e]; close_unit callback.
  all: repeat split; try done; cbn; lia.
Qed.

(** X5.  The stored result and the agent's final state always agree: either
    the result has success set, an output and no error text, and the agent
    is completed with the result's count; or the result has success unset,
    no output and an error text, and the agent's status is error with that
    same text as its error message. *)
Theorem _run_agent_result_consistent (callback : option Callback)
    (stop_event : nat → bool) (w : World) :
  let w' := fst (_run_agent callback stop_event w) in
  ∃ r,
    get_result (self w') (id (agent w)) = Some r ∧
    agent_id r = id (agent w) ∧
    ((success r = true ∧ is_Some (output r) ∧ error r = None ∧
      status (state (agent w')) = "completed" ∧
      iterations r = iteration_count (state (agent w'))) ∨
     (success r = false ∧ output r = None ∧ is_Some (error r) ∧
      status (state (agent w')) = "error" ∧
      error_message (state (agent w')) = error r)).
Proof.
  cbv zeta. run_unit w1 r E F. finish_unit r callback.
  all: eexists; unfold get_result; cbn; rewrite Fid, lookup_insert_eq.
  all: split; [reflexivity|]; split; [reflexivity|]; cbn.
  all: first [left; by repeat split | right; by repeat split].
Qed.

(** X6.  A run logs its failures and nothing else: the log grows by one
    error record when the body raised, carrying the result's error text,
    then by one more when the callback raised, carrying its message. *)
Theorem _run_agent_log (callback : option Callback)
    (stop_event : nat → bool) (w : World) :
  let w' := fst (_run_agent callback stop_event w) in
  ∃ r,
    get_result (self w') (id (agent w)) = Some r ∧
    logger (self w') =
      logger (self w) ++
      match error r with
      | Some msg => [(ERROR, "Agent " +:+ id (agent w) +:+ " failed: " +:+ msg)]
      | None => []
      end ++
      match callback with
      | Some obs =>
          match obs (agent w') r with
          | Some msg =>
              [(ERROR, "Callback failed for agent " +:+ id (agent w) +:+ ": "
                       +:+ msg)]
          | None => []
          end
      | None => []
      end.
Proof.
  cbv zeta. run_unit w1 r E F. finish_unit r callback.
  all: eexists; unfold get_result; cbn; rewrite Fid, lookup_insert_eq.
  all: split; [reflexivity|]; cbn; rewrite ?Hobs, Fself, ?app_nil_r.
  all: by rewrite <- ?app_assoc.
Qed.

(** X7.  A complete run never alters the identity, the configuration or
    the code of its agent. *)
Theorem run_keeps_agent (callback : option Callback)
    (stop_event : nat → bool) (w : World) :
  let w' := fst (run callback stop_event w) in
  id (agent w') = id (agent w) ∧
  config (agent w') = config (agent w) ∧
  code (agent w') = code (agent w).
Proof.
  cbv zeta. destruct (is_running (agent w)) eqn:Hrun.
  - unfold run, bind at 1, execute_agent, bind, gets. cbn. by rewrite Hrun.
  - start_run callback w Hrun w1.
    destruct (_run_agent_agent callback stop_event w1) as (_ & -> & -> & ->).
    by rewrite Hid1, Hconfig1, Hcode1.
Qed.

(** ** Several agents, one environment *)

Lemma execute_agent_other_ids (callback : option Callback) (w : World)
    (k : string) :
  k ≠ id (agent w) →
  let e' := self (fst (execute_agent callback w)) in
  running_agents e' !! k = running_agents (self w) !! k ∧
  stop_events e' !! k = stop_events (self w) !! k.
Proof.
  intros Hk. cbv zeta. unfold execute_agent, bind, gets. cbn.
  destruct (is_running (agent w)); cbn; [done|].
  by rewrite !lookup_insert_ne.
Qed.

Lemma _run_agent_registry (callback : option Callback)
    (stop_event : nat → bool) (w : World) :
  let e' := self (fst (_run_agent callback stop_event w)) in
  running_agents e' = discard (id (agent w)) (running_agents (self w)) ∧
  stop_events e' = discard (id (agent w)) (stop_events (self w)).
Proof.
  cbv zeta. run_unit w1 r E F. finish_unit r callback.
  all: by rewrite Fid, Fself.
Qed.

(** X8.  A complete run of one agent leaves alone whatever the environment
    holds under any other id: stored result, registered thread and stop
    event. *)
Theorem run_other_ids (callback : option Callback)
    (stop_event : nat → bool) (w : World) (k : string) :
  k ≠ id (agent w) →
  let e' := self (fst (run callback stop_event w)) in
  get_result e' k = get_result (self w) k ∧
  running_agents e' !! k = running_agents (self w) !! k ∧
  stop_events e' !! k = stop_events (self w) !! k.
Proof.
  intros Hk. cbv zeta. unfold get_result.
  destruct (is_running (agent w)) eqn:Hrun.
  - unfold run, bind at 1, execute_agent, bind, gets. cbn. by rewrite Hrun.
  - rewrite run_idle by done.
    destruct (execute_agent_other_ids callback w k Hk) as (Hra & Hse).
    pose proof (execute_agent_results callback w) as Hres.
    destruct (execute_agent_idle callback w Hrun) as (w1 & E1 & Hid1 & _).
    rewrite E1 in *. cbn [fst] in *.
    destruct (_run_agent_results callback stop_event w1) as (r & ->).
    destruct (_run_agent_registry callback stop_event w1) as (-> & ->).
    rewrite Hid1, lookup_insert_ne, !lookup_discard_ne by done.
    by rewrite Hres, Hra, Hse.
Qed.

(** ** What every history keeps *)

Lemma stop_agent_finishes_results_cases (callback : option Callback)
    (stop_event : nat → bool) (u : World) (agent_id : string)
    (e : ExecutionEnvironment) :
  let e' := fst (stop_agent (unit_finishes callback stop_event u) agent_id e)
  in results e' = results e ∨
     ∃ r, results e' = <[id (agent u) := r]> (results e).
Proof.
  cbv zeta. unfold stop_agent, unit_finishes.
  destruct (running_agents e !! agent_id); [|by left].
  set (e1 := match stop_events e !! agent_id with
             | Some _ => _ | None => _ end).
  assert (He1 : results e1 = results e)
    by (subst e1; by destruct (stop_events e !! agent_id)).
  destruct (_run_agent_results callback stop_event (with_self e1 u))
    as (r & Hr).
  cbn [agent self with_self] in Hr. right. exists r.
  destruct (running_agents _ !! agent_id); cbn [fst results self
    set_stop_events set_running_agents]; by rewrite Hr, He1.
Qed.

Lemma perform_results_retained (k : string) (w : World) (act : action) :
  is_Some (results (self w) !! k) →
  is_Some (results (self (perform w act)) !! k).
Proof.
  intros Hk. destruct act as [a cb | a cb se | k' [[[a cb] se]|]];
    cbn [perform].
  - by rewrite execute_agent_results.
  - destruct (_run_agent_results cb se (focus a w)) as (r & ->).
    cbn [agent self focus]. rewrite lookup_insert_is_Some'. by right.
  - cbn [self with_self].
    destruct (stop_agent_finishes_results_cases cb se (focus a w) k' (self w))
      as [-> | (r & ->)]; [done|].
    rewrite lookup_insert_is_Some'. by right.
  - cbn [self with_self]. by rewrite stop_agent_still_running_results.
Qed.

(** X9.  A stored result is never lost: whatever is done with the
    environment afterwards (agents executed, units running to their end,
    agents stopped), [get_result] keeps answering with some result for an
    id it once had one for. *)
Theorem results_retained (acts : list action) (k : string) (w : World) :
  is_Some (get_result (self w) k) →
  is_Some (get_result (self (foldl perform w acts)) k).
Proof.
  unfold get_result. revert w.
  induction acts as [|act acts IH]; intros w Hk; [done|].
  cbn. apply IH. by apply perform_results_retained.
Qed.

Lemma dom_discard {V} (key : string) (d : gmap string V) :
  dom (discard key d) = dom d ∖ {[key]}.
Proof.
  unfold discard. destruct (d !! key) eqn:E; [apply dom_delete_L|].
  apply not_elem_of_dom in E. symmetry.
  by apply difference_disjoint_L, disjoint_singleton_r.
Qed.

(** The registry and the stop events hold the same ids. *)
Definition in_step (e : ExecutionEnvironment) : Prop :=
  dom (running_agents e) = dom (stop_events e).

Lemma execute_agent_in_step (callback : option Callback) (w : World) :
  in_step (self w) → in_step (self (fst (execute_agent callback w))).
Proof.
  unfold in_step, execute_agent, bind, gets. cbn.
  destruct (is_running (agent w)); cbn; [done|].
  intros H. by rewrite !dom_insert_L, H.
Qed.

Lemma _run_agent_in_step (callback : option Callback)
    (stop_event : nat → bool) (w : World) :
  in_step (self w) →
  in_step (self (fst (_run_agent callback stop_event w))).
Proof.
  unfold in_step. intros H.
  destruct (_run_agent_registry callback stop_event w) as (-> & ->).
  by rewrite !dom_discard, H.
Qed.

Lemma stop_agent_in_step (join : Join) (agent_id : string)
    (e : ExecutionEnvironment) :
  (∀ thread t e1, in_step e1 → in_step (fst (join thread t e1))) →
  in_step e → in_step (fst (stop_agent join agent_id e)).
Proof.
  intros Hjoin He. unfold stop_agent.
  destruct (running_agents e !! agent_id) as [th|]; [|done].
  set (e1 := match stop_events e !! agent_id with
             | Some _ => _ | None => _ end).
  assert (He1 : in_step e1).
  { subst e1. unfold in_step in *.
    destruct (stop_events e !! agent_id) as [ev|] eqn:Hev; [|done]. cbn.
    rewrite dom_insert_L, He. apply elem_of_dom_2 in Hev. symmetry.
    by apply subseteq_union_1_L, singleton_subseteq_l. }
  pose proof (Hjoin th 5%Z e1 He1) as H2.
  destruct (join th 5%Z e1) as [e2 [|]]; cbn [fst] in *; [done|].
  destruct (running_agents e2 !! agent_id); [|done].
  unfold in_step in *. cbn. by rewrite dom_discard, dom_delete_L, H2.
Qed.

Lemma perform_in_step (w : World) (act : action) :
  in_step (self w) → in_step (self (perform w act)).
Proof.
  intros H. destruct act as [a cb | a cb se | k [[[a cb] se]|]];
    cbn [perform].
  - by apply execute_agent_in_step.
  - by apply _run_agent_in_step.
  - cbn [self with_self]. apply stop_agent_in_step; [|done].
    intros th t e1 He1. unfold unit_finishes. cbn [fst].
    by apply _run_agent_in_step.
  - cbn [self with_self]. by apply stop_agent_in_step.
Qed.

(** X10.  Throughout the life of an environment an id is registered as
    running exactly when it has a stop event: the two dictionaries never
    drift apart. *)
Theorem registry_and_stop_events_in_step (acts : list action) (w : World)
    (k : string) :
  self w = __init__ →
  let e := self (foldl perform w acts) in
  env_is_running e k = true ↔ is_Some (stop_events e !! k).
Proof.
  intros Hinit. cbv zeta.
  assert (H : in_step (self (foldl perform w acts))).
  { assert (H0 : in_step (self w)) by (by rewrite Hinit).
    clear Hinit. revert w H0.
    induction acts as [|act acts IH]; intros w H0; [done|].
    cbn. apply IH. by apply perform_in_step. }
  unfold env_is_running, in_step in *.
  rewrite bool_decide_eq_true, <- !elem_of_dom. by rewrite H.
Qed.

Lemma _run_agent_logger (callback : option Callback)
    (stop_event : nat → bool) (w : World) :
  logger (self w) `prefix_of`
  logger (self (fst (_run_agent callback stop_event w))).
Proof.
  run_unit w1 r E F. finish_unit r callback.
  all: rewrite Fself; repeat apply prefix_app_r; reflexivity.
Qed.

Lemma execute_agent_logger (callback : option Callback) (w : World) :
  logger (self (fst (execute_agent callback w))) = logger (self w).
Proof.
  unfold execute_agent, bind, gets. cbn. by destruct (is_running (agent w)).
Qed.

Lemma stop_agent_logger (join : Join) (agent_id : string)
    (e : ExecutionEnvironment) :
  (∀ thread t e1, logger e1 `prefix_of` logger (fst (join thread t e1))) →
  logger e `prefix_of` logger (fst (stop_agent join agent_id e)).
Proof.
  intros Hjoin. unfold stop_agent.
  destruct (running_agents e !! agent_id) as [th|]; [|done].
  set (e1 := match stop_events e !! agent_id with
             | Some _ => _ | None => _ end).
  assert (He1 : logger e1 = logger e)
    by (subst e1; by destruct (stop_events e !! agent_id)).
  pose proof (Hjoin th 5%Z e1) as H2. rewrite He1 in H2.
  destruct (join th 5%Z e1) as [e2 [|]]; cbn [fst] in *.
  - cbn. by apply prefix_app_r.
  - by destruct (running_agents e2 !! agent_id).
Qed.

Lemma perform_logger (w : World) (act : action) :
  logger (self w) `prefix_of` logger (self (perform w act)).
Proof.
  destruct act as [a cb | a cb se | k [[[a cb] se]|]]; cbn [perform].
  - by rewrite execute_agent_logger.
  - apply (_run_agent_logger cb se (focus a w)).
  - cbn [self with_self]. apply stop_agent_logger.
    intros th t e1. unfold unit_finishes. cbn [fst].
    apply (_run_agent_logger cb se (with_self e1 (focus a w))).
  - cbn [self with_self]. by apply stop_agent_logger.
Qed.

(** X11.  The log only grows: no action on an environment removes or
    rewrites a record already logged. *)
Theorem log_only_grows (acts : list action) (w : World) :
  logger (self w) `prefix_of` logger (self (foldl perform w acts)).
Proof.
  revert w. induction acts as [|act acts IH]; intros w; [done|].
  cbn. etrans; [apply perform_logger | apply IH].
Qed.

(** After a unit's run, [execute_agent] starts the agent again. *)
Lemma execute_agent_after_run_aux (callback callback' : option Callback)
    (stop_event : nat → bool) (w : World) :
  ∃ w3,
    execute_agent callback' (fst (_run_agent callback stop_event w)) =
      (w3, Ok (id (agent w))) ∧
    is_running (agent w3) = true ∧
    is_Some (running_agents (self w3) !! id (agent w)).
Proof.
  destruct (_run_agent_agent callback stop_event w) as (Hrun & Hid & _).
  generalize dependent (fst (_run_agent callback stop_event w)).
  intros w2 Hrun Hid.
  unfold execute_agent, bind, gets. cbn. rewrite Hrun.
  eexists. split; [by rewrite Hid|]. cbn.
  rewrite lookup_insert_eq. by split.
Qed.

(** ** More on stopping *)

(** X12.  Once a unit has run to its end, [stop_agent] on its agent's id
    answers false and changes nothing, whatever the thread then does. *)
Theorem stop_agent_after_run (join : Join) (callback : option Callback)
    (stop_event : nat → bool) (w : World) :
  let e := self (fst (_run_agent callback stop_event w)) in
  stop_agent join (id (agent w)) e = (e, Ok false).
Proof.
  cbv zeta. apply stop_agent_not_registered, _run_agent_deregisters.
Qed.

(** The unit, working on the agent of [u], runs [_run_agent] to its end
    while the caller waits, and the agent is executed again, with
    [callback'], before the wait is over. *)
Definition unit_finishes_and_restarts (callback callback' : option Callback)
    (stop_event : nat → bool) (u : World) : Join := λ _ _ e,
  (self (fst (execute_agent callback'
                (fst (_run_agent callback stop_event (with_self e u))))),
   false).

(** X13.  A unit is registered under its agent's id; while [stop_agent]
    waits for it, the unit ends and the agent is executed again.
    [stop_agent] then answers true and removes from the environment the
    registration and the stop event of the run that has just started,
    whose agent is running. *)
Theorem stop_agent_drops_restarted_run (callback callback' : option Callback)
    (stop_event : nat → bool) (u : World) (thread : Thread)
    (e : ExecutionEnvironment) :
  running_agents e !! id (agent u) = Some thread →
  (∃ e',
     stop_agent (unit_finishes_and_restarts callback callback' stop_event u)
       (id (agent u)) e = (e', Ok true) ∧
     env_is_running e' (id (agent u)) = false ∧
     stop_events e' !! id (agent u) = None) ∧
  (∀ e1, is_running
           (agent (fst (execute_agent callback'
                          (fst (_run_agent callback stop_event
                                  (with_self e1 u)))))) = true).
Proof.
  intros Hreg. split.
  - unfold stop_agent, unit_finishes_and_restarts. rewrite Hreg.
    set (e1 := match stop_events e !! id (agent u) with
               | Some _ => _ | None => _ end).
    destruct (execute_agent_after_run_aux callback callback' stop_event
                (with_self e1 u)) as (w3 & E3 & _ & th3 & Hreg3).
    cbn [agent with_self] in E3, Hreg3. rewrite E3. cbn [fst].
    rewrite Hreg3. eexists. split; [reflexivity|].
    unfold env_is_running. cbn.
    by rewrite lookup_delete_eq, lookup_discard.
  - intros e1.
    destruct (execute_agent_after_run_aux callback callback' stop_event
                (with_self e1 u)) as (w3 & -> & Hrun & _).
    exact Hrun.
Qed.

(** ** Times *)

(** X14.  With a clock that never runs backwards, a complete run leaves
    the agent with a start time no later than its end time, and stores a
    result whose duration is not negative. *)
Theorem run_times_ordered (callback : option Callback)
    (stop_event : nat → bool) (w : World) :
  (∀ m n, m ≤ n → (now m ≤ now n)%Z) →
  is_running (agent w) = false →
  ∃ w' r s e,
    run callback stop_event w = (w', Ok tt) ∧
    start_time (state (agent w')) = Some s ∧
    end_time (state (agent w')) = Some e ∧
    (s ≤ e)%Z ∧
    get_result (self w') (id (agent w)) = Some r ∧
    (0 ≤ duration r)%Z.
Proof.
  intros Hmono Hrun. rewrite run_idle by done.
  unfold execute_agent at 1, bind, gets. cbn. rewrite Hrun. cbn.
  run_unit w2 r E F.
  match type of E with
  | _execute_agent_code ?se ?w0 = _ =>
      pose proof (_execute_agent_code_run_state se w0) as (_ & _ & Hst & _)
  end.
  rewrite E in Hst. cbn in Hst.
  finish_unit r callback.
  all: eexists _, _, _, _; split; [reflexivity|]; cbn.
  all: unfold get_result; cbn; rewrite Fid, lookup_insert_eq, Hst.
  all: repeat split; try done.
  all: first [apply Hmono; lia
             | apply Zle_minus_le_0, Hmono; lia].
Qed.

(** X15.  A run that succeeds does not touch the agent's error message: an
    agent that failed once still shows that failure's message after a later
    run has completed. *)
Theorem successful_run_keeps_error_message (callback : option Callback)
    (stop_event : nat → bool) (w : World) (r : ExecutionResult) :
  is_running (agent w) = false →
  let w' := fst (run callback stop_event w) in
  get_result (self w') (id (agent w)) = Some r →
  success r = true →
  status (state (agent w')) = "completed" ∧
  error_message (state (agent w')) = error_message (state (agent w)).
Proof.
  intros Hrun. cbv zeta. rewrite run_idle by done.
  unfold execute_agent at 1, bind, gets. cbn. rewrite Hrun. cbn.
  run_unit w2 r' E F.
  match type of E with
  | _execute_agent_code ?se ?w0 = _ =>
      pose proof (_execute_agent_code_run_state se w0) as (_&_&_&_& Hem)
  end.
  rewrite E in Hem. cbn in Hem.
  unfold get_result. finish_unit r' callback.
  all: rewrite Fid, lookup_insert_eq; intros [= <-]; cbn; try done.
Qed.

(** ** The agent record *)

(** X17.  [reset] puts the state of any agent back to the defaults (idle,
    count 0, no times, no error message) and keeps its identity,
    configuration and code; [execute_agent] then accepts the agent, also
    when it was running and its unit is still registered. *)
Theorem reset_then_execute (callback : option Callback) (w : World) :
  ∃ w1 w2,
    reset w = (w1, Ok tt) ∧
    state (agent w1) = AgentState_default ∧
    is_running (agent w1) = false ∧
    id (agent w1) = id (agent w) ∧
    config (agent w1) = config (agent w) ∧
    code (agent w1) = code (agent w) ∧
    self w1 = self w ∧
    execute_agent callback w1 = (w2, Ok (id (agent w))) ∧
    is_running (agent w2) = true.
Proof.
  unfold reset, execute_agent, bind, gets. cbn.
  eexists _, _. by repeat split.
Qed.

(** What a caller of [execute_agent] sees of an agent that was not
    running. *)
Lemma execute_agent_started (callback : option Callback) (w : World) :
  is_running (agent w) = false →
  ∃ w1,
    execute_agent callback w = (w1, Ok (id (agent w))) ∧
    is_running (agent w1) = true ∧
    id (agent w1) = id (agent w) ∧
    code (agent w1) = code (agent w) ∧
    env_is_running (self w1) (id (agent w)) = true.
Proof.
  intros Hrun. unfold execute_agent, bind, gets. cbn. rewrite Hrun.
  eexists. split; [reflexivity|]. cbn. unfold env_is_running. cbn.
  by rewrite lookup_insert_eq.
Qed.

End Execution.


(** ** The properties on the sample inputs *)

(** C1 on [agent_a]: it is idle, so [execute_agent] starts it. *)
Lemma execute_agent_spec_witness :
  ∃ w',
    execute_agent sample_now None (fresh_world agent_a) = (w', Ok "a") ∧
    status (state (agent w')) = "running" ∧
    iteration_count (state (agent w')) = 0%Z ∧
    env_is_running (self w') "a" = true.
Proof.
  destruct (execute_agent_spec sample_now None (fresh_world agent_a))
    as (w' & E & Hs & _ & _ & Hc & _ & _ & Hl & _).
  exists w'. by repeat split.
Defined.

(** C6 on the scenario of the specification: ceiling 5, no stop, no
    fault. *)
Lemma run_reaches_ceiling_witness :
  is_running agent_a = false ∧
  strip (code agent_a) ≠ "" ∧
  ∃ w' r,
    run sample_now sample_repr no_fault None never_set (fresh_world agent_a)
      = (w', Ok tt) ∧
    iteration_count (state (agent w')) = 5%Z ∧
    status (state (agent w')) = "completed" ∧
    get_result (self w') "a" = Some r ∧
    success r = true ∧
    error r = None ∧
    iterations r = 5%Z ∧
    output r = Some "Agent executed successfully for 5 iterations".
Proof.
  split; [reflexivity|]. split; [discriminate|].
  apply (run_reaches_ceiling sample_now sample_repr no_fault None never_set
           (fresh_world agent_a)).
  - reflexivity.
  - discriminate.
  - cbn. lia.
  - intros j _. split; reflexivity.
Defined.

(** C6 as first stated fails on an agent without code: no step runs and
    nothing faults, yet the count stays at 0 under a ceiling of 5. *)
Lemma blank_agent_does_not_reach_ceiling :
  let w' := fst (run sample_now sample_repr no_fault None never_set
                   (fresh_world agent_blank)) in
  max_iterations (config agent_blank) = 5%Z ∧
  (∀ j, never_set j = false ∧ no_fault j = None) ∧
  ¬ (iteration_count (state (agent w')) = 5%Z).
Proof.
  cbv zeta. split; [reflexivity|]. split; [by split|].
  vm_compute. discriminate.
Qed.

(** C5 on [agent_a] when the stop event is set from the start. *)
Lemma run_stopped_before_first_step_witness :
  always_set 0 = true ∧
  ∃ w' r,
    run sample_now sample_repr no_fault None always_set (fresh_world agent_a)
      = (w', Ok tt) ∧
    get_result (self w') "a" = Some r ∧
    success r = true ∧
    output r = Some "Execution stopped at iteration 0" ∧
    error r = None ∧
    iterations r = 0%Z ∧
    status (state (agent w')) = "completed" ∧
    iteration_count (state (agent w')) = 0%Z.
Proof.
  split; [reflexivity|].
  apply (run_stopped_before_first_step sample_now sample_repr no_fault None
           always_set (fresh_world agent_a)).
  - reflexivity.
  - discriminate.
  - cbn. lia.
  - reflexivity.
Defined.

(** C5 as first stated fails there: the run is stopped before any step,
    and the stored result does not have success unset. *)
Lemma stopped_run_reports_success :
  let w' := fst (run sample_now sample_repr no_fault None always_set
                   (fresh_world agent_a)) in
  always_set 0 = true ∧
  ¬ (∃ r, get_result (self w') "a" = Some r ∧
          success r = false ∧
          error r = None ∧
          iterations r = 0%Z).
Proof.
  cbv zeta. split; [reflexivity|].
  intros (r & Hr & Hs & _). vm_compute in Hr.
  injection Hr as <-. discriminate Hs.
Qed.

(** C10 on an agent whose code is [spaces_and_tab], ceiling 5. *)
Lemma run_blank_code_witness :
  all_space spaces_and_tab = true ∧
  ∃ w' r,
    run sample_now sample_repr no_fault None never_set
      (fresh_world (sample_agent "c" spaces_and_tab 5)) = (w', Ok tt) ∧
    get_result (self w') "c" = Some r ∧
    success r = true ∧
    output r = Some "No code to execute" ∧
    error r = None ∧
    iterations r = 0%Z ∧
    status (state (agent w')) = "completed" ∧
    iteration_count (state (agent w')) = 0%Z.
Proof.
  split; [reflexivity|].
  apply (run_blank_code sample_now sample_repr no_fault None never_set
           (fresh_world (sample_agent "c" spaces_and_tab 5))); reflexivity.
Defined.

(** C9 on [agent_a]. *)
Lemma run_iteration_count_monotone_witness :
  is_running agent_a = false ∧
  ∃ st hs,
    history (fst (execute_agent sample_now None (fresh_world agent_a)))
      = [] ++ [st] ∧
    iteration_count st = 0%Z ∧
    history (fst (run sample_now sample_repr no_fault None never_set
                    (fresh_world agent_a))) = [] ++ st :: hs ∧
    Sorted Z.le (map iteration_count (st :: hs)).
Proof.
  split; [reflexivity|].
  apply (run_iteration_count_monotone sample_now sample_repr no_fault None
           never_set (fresh_world agent_a)).
  reflexivity.
Defined.

(** C3 at its failing input: [agent_a] has been started, its unit finds the
    stop event set at its first check and ends within the wait, and
    [stop_agent("a")] raises [KeyError('a')]. *)
Lemma stop_agent_raises_when_unit_finishes_witness :
  let u := fst (execute_agent sample_now None (fresh_world agent_a)) in
  running_agents (self u) !! "a" = Some {| thread_name := "agent-a" |} ∧
  snd (stop_agent
         (unit_finishes sample_now sample_repr no_fault None always_set u)
         "a" (self u)) = Raise (KeyError "a").
Proof.
  cbv zeta. split; [reflexivity|].
  apply (stop_agent_raises_when_unit_finishes sample_now sample_repr no_fault
           None always_set
           (fst (execute_agent sample_now None (fresh_world agent_a)))
           {| thread_name := "agent-a" |}).
  reflexivity.
Defined.

(** C7 on a small history: "a" is started and then stopped in vain while
    the unit of another agent, "b", runs to its end; nothing is stored for
    "a". *)
Lemma get_result_round_trip_witness :
  get_result
    (self (foldl (perform sample_now sample_repr no_fault)
             (fresh_world agent_a)
             [act_execute agent_a None;
              act_run agent_blank None never_set;
              act_stop "a" None])) "a" = None.
Proof.
  apply (proj2 (proj2 (get_result_round_trip sample_now sample_repr
                         no_fault))).
  - reflexivity.
  - repeat constructor; cbn; try discriminate; auto.
Defined.

(** * The project and the web endpoint *)

(** ** project.py *)

Module project.

Record ProjectConfig := {
  name : string;
  description : option string;
  version : string;
  author : option string;
  python_version : string;
  dependencies : list string
}.

Record Project := {
  config : ProjectConfig;
  path : string;
  agents : gmap string Agent;
  created_at : datetime;
  updated_at : datetime
}.

(** A project in memory, the regular files that exist on disk (by path),
    and the number of readings of the clock so far. *)
Record Store := {
  this : Project;
  files : gset string;
  ticks : nat
}.

Definition with_agents (f : gmap string Agent → gmap string Agent)
    (t : datetime) (p : Project) : Project :=
  {| config := config p; path := path p; agents := f (agents p);
     created_at := created_at p; updated_at := t |}.

Section Project.

(** The wall clock, as for the execution environment. *)
Variable now : nat → datetime.

(** [agent_file path agent_id] is the path
    [Path(path) / "agents" / f"{agent_id}.json"]. *)
Variable agent_file : string → string → string.

(** [Project.add_agent] *)
Definition add_agent (a : Agent) (s : Store) : Store :=
  {| this := with_agents <[id a := a]> (now (ticks s)) (this s);
     files := files s;
     ticks := S (ticks s) |}.

(** [Project.remove_agent] *)
Definition remove_agent (agent_id : string) (s : Store) : Store :=
  match agents (this s) !! agent_id with
  | Some _ =>
      {| this := with_agents (delete agent_id) (now (ticks s)) (this s);
         files := files s ∖ {[agent_file (path (this s)) agent_id]};
         ticks := S (ticks s) |}
  | None => s
  end.

(** [Project.get_agent] *)
Definition get_agent (agent_id : string) (p : Project) : option Agent :=
  agents p !! agent_id.

(** X18.  After [add_agent], [get_agent] finds the agent under its own id,
    replacing whatever the project held under that id; the agents under
    other ids and the files on disk are as before, and the project's
    [updated_at] is the clock's reading. *)
Theorem add_agent_get_agent (a : Agent) (s : Store) :
  let s' := add_agent a s in
  get_agent (id a) (this s') = Some a ∧
  (∀ k, k ≠ id a → get_agent k (this s') = get_agent k (this s)) ∧
  files s' = files s ∧
  updated_at (this s') = now (ticks s).
Proof.
  cbv zeta. unfold get_agent, add_agent. cbn.
  rewrite lookup_insert_eq. repeat split; try done.
  intros k Hk. by rewrite lookup_insert_ne.
Qed.

(** X19.  [remove_agent] is idempotent: removing the same id once more
    changes nothing further, neither the dictionary nor the files on disk
    nor [updated_at], whether the project held the id at first or not. *)
Theorem remove_agent_idempotent (agent_id : string) (s : Store) :
  remove_agent agent_id (remove_agent agent_id s) = remove_agent agent_id s.
Proof.
  unfold remove_agent.
  destruct (agents (this s) !! agent_id) as [a|] eqn:H; cbn.
  - by rewrite lookup_delete_eq.
  - by rewrite H.
Qed.

(** X20.  [remove_agent] on an id the project holds: the agent is gone
    from the project and its file from the disk, one agent fewer is held,
    and the other agents and the other files are untouched. *)
Theorem remove_agent_known (agent_id : string) (a : Agent) (s : Store) :
  get_agent agent_id (this s) = Some a →
  let s' := remove_agent agent_id s in
  get_agent agent_id (this s') = None ∧
  (agent_file (path (this s)) agent_id ∉ files s') ∧
  S (size (agents (this s'))) = size (agents (this s)) ∧
  (∀ k, k ≠ agent_id → get_agent k (this s') = get_agent k (this s)) ∧
  (∀ f, f ≠ agent_file (path (this s)) agent_id →
        (f ∈ files s' ↔ f ∈ files s)).
Proof.
  unfold get_agent, remove_agent. intros H. cbv zeta. rewrite H. cbn.
  rewrite lookup_delete_eq. split; [done|]. split.
  { rewrite elem_of_difference, elem_of_singleton. tauto. }
  split.
  { rewrite <- (insert_delete_id (agents (this s)) agent_id a H) at 2.
    by rewrite map_size_insert_None by apply lookup_delete_eq. }
  split.
  - intros k Hk. by rewrite lookup_delete_ne.
  - intros f Hf. rewrite elem_of_difference, elem_of_singleton. tauto.
Qed.

(** X21.  Adding an agent under an id the project did not hold and then
    removing that id gives back the dictionary of agents as it was. *)
Theorem add_then_remove_agent (a : Agent) (s : Store) :
  get_agent (id a) (this s) = None →
  agents (this (remove_agent (id a) (add_agent a s))) = agents (this s).
Proof.
  unfold get_agent, remove_agent, add_agent. intros H. cbn.
  rewrite lookup_insert_eq. cbn. rewrite delete_insert_eq.
  by apply delete_id.
Qed.

End Project.

End project.

(** ** web/server.py: the endpoint that executes an agent *)

Module server.

(** [HTTPException(status_code=..., detail=...)] *)
Record HTTPException := {
  status_code : Z;
  detail : string
}.

(** The dictionary the endpoint answers with when the execution started. *)
Record Started := {
  message : string;
  execution_id : string;
  agent_id : string
}.

(** The module's globals, and the number of readings of the clock. *)
Record Globals := {
  current_project : option project.Project;
  execution_env : ExecutionEnvironment;
  readings : nat
}.

(** The agent object found under [key] in the project has been mutated in
    place to [a]; nothing else of the project has changed. *)
Definition mutated (key : string) (a : Agent) (p : project.Project)
    : project.Project :=
  {| project.config := project.config p;
     project.path := project.path p;
     project.agents := <[key := a]> (project.agents p);
     project.created_at := project.created_at p;
     project.updated_at := project.updated_at p |}.

Section Server.

Variable now : nat → datetime.
Variable repr : string → string.

(** [POST /api/agents/execute] *)
Definition execute_agent (request_agent_id : string) (g : Globals)
    : Globals * (HTTPException + Started) :=
  match current_project g with
  | None => (g, inl {| status_code := 404; detail := "No project loaded" |})
  | Some p =>
      match project.get_agent request_agent_id p with
      | None => (g, inl {| status_code := 404; detail := "Agent not found" |})
      | Some a =>
          if is_running a then
            (g, inl {| status_code := 400;
                       detail := "Agent is already running" |})
          else if bool_decide (strip (code a) = "") then
            (g, inl {| status_code := 400;
                       detail := "Agent has no code to execute" |})
          else
            let w := {| self := execution_env g; agent := a;
                        ticks := readings g; history := []; calls := [] |} in
            let '(w', r) := execute_agent now None w in
            let g' := {| current_project :=
                           Some (mutated request_agent_id (agent w') p);
                         execution_env := self w';
                         readings := ticks w' |} in
            match r with
            | Ok execution_id =>
                (g', inr {| message := "Agent execution started";
                            execution_id := execution_id;
                            agent_id := id (agent w') |})
            | Raise e =>
                (g', inl {| status_code := 500; detail := str repr e |})
            end
      end
  end.

Lemma endpoint_started (request_agent_id : string) (g : Globals) :
  match execute_agent request_agent_id g with
  | (g', inl err) => True
  | (g', inr started) =>
      ∃ p' a',
        current_project g' = Some p' ∧
        project.get_agent request_agent_id p' = Some a' ∧
        is_running a' = true ∧
        strip (code a') ≠ "" ∧
        env_is_running (execution_env g') (id a') = true ∧
        id a' = execution_id started
  end.
Proof.
  unfold execute_agent.
  destruct (current_project g) as [p|]; [|done].
  destruct (project.get_agent request_agent_id p) as [a|]; [|done].
  destruct (is_running a) eqn:Hrun; [done|].
  case_bool_decide as Hcode; [done|].
  match goal with
  | |- context [{| self := ?e; agent := a; ticks := ?t; history := [];
                    calls := [] |}] =>
      destruct (execute_agent_started now None
                  {| self := e; agent := a; ticks := t; history := [];
                     calls := [] |} Hrun)
        as (w1 & -> & Hrun1 & Hid1 & Hcode1 & Hreg1)
  end.
  cbn in *. eexists _, _. split; [reflexivity|].
  unfold project.get_agent. cbn. rewrite lookup_insert_eq.
  split; [reflexivity|]. rewrite Hid1, Hcode1. by repeat split.
Qed.

(** X22.  The endpoint answers 404 (no project, or no such agent), 400 (the
    agent is running, or its code is blank) or with the started execution,
    never 500.  An error leaves the globals as they were.  When the
    execution started, the project's agent under the requested id is
    running, its code is not blank, it is registered in the environment,
    and the answer carries its id. *)
Theorem endpoint_outcomes (request_agent_id : string) (g : Globals) :
  match execute_agent request_agent_id g with
  | (g', inl err) =>
      g' = g ∧ (status_code err = 404%Z ∨ status_code err = 400%Z)
  | (g', inr started) =>
      ∃ p' a',
        current_project g' = Some p' ∧
        project.get_agent request_agent_id p' = Some a' ∧
        is_running a' = true ∧
        strip (code a') ≠ "" ∧
        env_is_running (execution_env g') (id a') = true ∧
        execution_id started = id a' ∧
        agent_id started = id a'
  end.
Proof.
  unfold execute_agent.
  destruct (current_project g) as [p|]; [|by split; [|left]].
  destruct (project.get_agent request_agent_id p) as [a|];
    [|by split; [|left]].
  destruct (is_running a) eqn:Hrun; [by split; [|right]|].
  case_bool_decide as Hcode; [by split; [|right]|].
  match goal with
  | |- context [{| self := ?e; agent := a; ticks := ?t; history := [];
                    calls := [] |}] =>
      destruct (execute_agent_started now None
                  {| self := e; agent := a; ticks := t; history := [];
                     calls := [] |} Hrun)
        as (w1 & -> & Hrun1 & Hid1 & Hcode1 & Hreg1)
  end.
  cbn in *. eexists _, _. split; [reflexivity|].
  unfold project.get_agent. cbn. rewrite lookup_insert_eq.
  split; [reflexivity|]. rewrite Hid1, Hcode1. by repeat split.
Qed.

(** X23.  When the endpoint has started an agent, asking again for the
    same id is answered 400, "Agent is already running", and changes
    nothing. *)
Theorem endpoint_twice (request_agent_id : string) (g g1 : Globals)
    (started : Started) :
  execute_agent request_agent_id g = (g1, inr started) →
  execute_agent request_agent_id g1 =
  (g1, inl {| status_code := 400; detail := "Agent is already running" |}).
Proof.
  intros H. pose proof (endpoint_started request_agent_id g) as Ho.
  rewrite H in Ho. destruct Ho as (p' & a' & Hp & Ha & Hrun & _).
  unfold execute_agent. by rewrite Hp, Ha, Hrun.
Qed.

End Server.

End server.

(** * The further properties on sample inputs *)

(** A stop event that is set between the checks of iterations [k - 1] and
    [k], and stays set. *)
Definition set_from (k : nat) : nat → bool := λ i, bool_decide (k ≤ i).

(** [agent_a], started in a fresh environment. *)
Definition started_a : World :=
  fst (execute_agent sample_now None (fresh_world agent_a)).

(** [agent_a] after a run in which the work of step 2 raised "boom". *)
Definition failed_a : World :=
  fst (run sample_now sample_repr (fault_at 1 "boom") None never_set
         (fresh_world agent_a)).

(** X1 on [agent_a]. *)
Lemma execute_agent_twice_witness :
  is_running agent_a = false ∧
  execute_agent sample_now None started_a =
  (started_a, Raise (RuntimeError "Agent a is already running")).
Proof.
  split; [reflexivity|].
  apply (execute_agent_twice sample_now None None (fresh_world agent_a)).
  reflexivity.
Defined.

(** X3 on [agent_a], the stop event being set after two steps. *)
Lemma run_stopped_at_witness :
  set_from 2 2 = true ∧
  ∃ w' r,
    run sample_now sample_repr no_fault None (set_from 2)
      (fresh_world agent_a) = (w', Ok tt) ∧
    get_result (self w') "a" = Some r ∧
    success r = true ∧
    output r = Some "Execution stopped at iteration 2" ∧
    error r = None ∧
    iterations r = 2%Z ∧
    status (state (agent w')) = "completed" ∧
    iteration_count (state (agent w')) = 2%Z.
Proof.
  split; [reflexivity|].
  apply (run_stopped_at sample_now sample_repr no_fault None (set_from 2)
           (fresh_world agent_a) 2).
  - reflexivity.
  - discriminate.
  - cbn. lia.
  - intros j Hj. split; [|reflexivity].
    unfold set_from. apply bool_decide_eq_false_2. lia.
  - reflexivity.
Defined.

(** X4 on [agent_a] with a faulting step. *)
Lemma run_iteration_count_bounded_witness :
  is_running agent_a = false ∧
  ∃ w' r,
    run sample_now sample_repr (fault_at 1 "boom") None never_set
      (fresh_world agent_a) = (w', Ok tt) ∧
    (0 ≤ iteration_count (state (agent w')) ≤ 5)%Z ∧
    get_result (self w') "a" = Some r ∧
    (0 ≤ iterations r ≤ iteration_count (state (agent w')))%Z.
Proof.
  split; [reflexivity|].
  apply (run_iteration_count_bounded sample_now sample_repr
           (fault_at 1 "boom") None never_set (fresh_world agent_a)).
  reflexivity.
Defined.

(** X8: a run of [agent_blank] (id "b") in the environment where "a" has
    been started. *)
Lemma run_other_ids_witness :
  "a" ≠ id agent_blank ∧
  env_is_running
    (self (fst (run sample_now sample_repr no_fault None never_set
                  (focus agent_blank started_a)))) "a" = true.
Proof.
  split; [discriminate|].
  destruct (run_other_ids sample_now sample_repr no_fault None never_set
              (focus agent_blank started_a) "a") as (_ & Hreg & _).
  - discriminate.
  - unfold env_is_running. rewrite Hreg. reflexivity.
Defined.

(** X9: the result of the failed run of "a" survives what follows. *)
Lemma results_retained_witness :
  is_Some (get_result (self failed_a) "a") ∧
  is_Some
    (get_result
       (self (foldl (perform sample_now sample_repr no_fault) failed_a
                [act_execute agent_blank None;
                 act_run agent_blank None never_set;
                 act_stop "a" None;
                 act_execute agent_a None])) "a").
Proof.
  assert (H : is_Some (get_result (self failed_a) "a"))
    by (vm_compute; eauto).
  split; [exact H|].
  apply (results_retained sample_now sample_repr no_fault). exact H.
Defined.

(** X10 on a history of a fresh environment. *)
Lemma registry_and_stop_events_in_step_witness :
  let e := self (foldl (perform sample_now sample_repr no_fault)
                   (fresh_world agent_a)
                   [act_execute agent_a None;
                    act_execute agent_blank None;
                    act_run agent_blank None never_set;
                    act_stop "a" None]) in
  env_is_running e "a" = true ↔ is_Some (stop_events e !! "a").
Proof.
  apply (registry_and_stop_events_in_step sample_now sample_repr no_fault).
  reflexivity.
Defined.

(** X13: "a" is started, found stopped at its first check, and executed
    again while [stop_agent("a")] is still waiting. *)
Lemma stop_agent_drops_restarted_run_witness :
  running_agents (self started_a) !! "a" =
    Some {| thread_name := "agent-a" |} ∧
  ∃ e',
    stop_agent
      (unit_finishes_and_restarts sample_now sample_repr no_fault None None
         always_set started_a) "a" (self started_a) = (e', Ok true) ∧
    env_is_running e' "a" = false ∧
    stop_events e' !! "a" = None.
Proof.
  split; [reflexivity|].
  apply (stop_agent_drops_restarted_run sample_now sample_repr no_fault None
           None always_set started_a {| thread_name := "agent-a" |}).
  reflexivity.
Defined.

(** X14 with the sample clock, which advances at every reading. *)
Lemma run_times_ordered_witness :
  (∀ m n, m ≤ n → (sample_now m ≤ sample_now n)%Z) ∧
  ∃ w' r s e,
    run sample_now sample_repr no_fault None never_set (fresh_world agent_a)
      = (w', Ok tt) ∧
    start_time (state (agent w')) = Some s ∧
    end_time (state (agent w')) = Some e ∧
    (s ≤ e)%Z ∧
    get_result (self w') "a" = Some r ∧
    (0 ≤ duration r)%Z.
Proof.
  assert (Hmono : ∀ m n, m ≤ n → (sample_now m ≤ sample_now n)%Z)
    by (intros m n Hmn; unfold sample_now; lia).
  split; [exact Hmono|].
  apply (run_times_ordered sample_now sample_repr no_fault None never_set
           (fresh_world agent_a)); [exact Hmono | reflexivity].
Defined.

(** X15: [agent_a] failed with "boom", is run again without a fault, and
    still shows "boom". *)
Lemma successful_run_keeps_error_message_witness :
  let w' := fst (run sample_now sample_repr no_fault None never_set
                   failed_a) in
  status (state (agent w')) = "completed" ∧
  error_message (state (agent w')) = Some "boom".
Proof.
  cbv zeta.
  eapply (successful_run_keeps_error_message sample_now sample_repr no_fault
            None never_set failed_a).
  - reflexivity.
  - vm_compute. reflexivity.
  - reflexivity.
Defined.

(** The unit of [u] has ended its run but for the callback, in which it is
    still busy when the wait is over: the result is stored and the id
    deregistered, and the thread is alive. *)
Definition unit_in_callback (stop_event : nat → bool) (u : World) : Join :=
  λ _ _ e,
  (self (fst (_run_agent sample_now sample_repr no_fault None stop_event
                (with_self e u))), true).

(** X24: "a" is started, found stopped at its first check, and still busy
    in its callback when the wait of [stop_agent("a")] is over. *)
Lemma stop_agent_alive_after_wait_witness :
  let join := unit_in_callback always_set started_a in
  running_agents (self started_a) !! "a" =
    Some {| thread_name := "agent-a" |} ∧
  ∃ e',
    stop_agent join "a" (self started_a) = (e', Ok false) ∧
    env_is_running e' "a" = false ∧
    is_Some (get_result e' "a") ∧
    logger e' = [(WARNING, "Agent a did not stop gracefully")].
Proof.
  cbv zeta. split; [reflexivity|].
  destruct (stop_agent_alive_after_wait
              (unit_in_callback always_set started_a) "a"
              {| thread_name := "agent-a" |} (self started_a)
              (fst (unit_in_callback always_set started_a
                      {| thread_name := "agent-a" |} 5%Z
                      (set_stop_events <["a" := true]> (self started_a)))))
    as (_ & _ & _ & e' & E & Hra & _ & Hres & Hlog).
  - reflexivity.
  - reflexivity.
  - exists e'. split; [exact E|].
    unfold env_is_running, get_result. rewrite Hra, Hres, Hlog.
    vm_compute. eauto.
Defined.

(** X25 on the scenario of X13, where [stop_agent] answers true. *)
Lemma stop_agent_true_witness :
  let join := unit_finishes_and_restarts sample_now sample_repr no_fault
                None None always_set started_a in
  let e' := fst (stop_agent join "a" (self started_a)) in
  stop_agent join "a" (self started_a) = (e', Ok true) ∧
  running_agents e' !! "a" = None ∧
  stop_events e' !! "a" = None.
Proof.
  cbv zeta.
  assert (H : stop_agent
                (unit_finishes_and_restarts sample_now sample_repr no_fault
                   None None always_set started_a) "a" (self started_a) =
              (fst (stop_agent
                      (unit_finishes_and_restarts sample_now sample_repr
                         no_fault None None always_set started_a) "a"
                      (self started_a)), Ok true))
    by (vm_compute; reflexivity).
  split; [exact H|].
  destruct (stop_agent_true _ _ _ _ H) as (th & e1 & e2 & _ & _ & _ & Hr & Hs).
  by split.
Defined.

(** A project "proj" that holds [agent_a], whose file is on disk. *)
Definition sample_agent_file (path agent_id : string) : string :=
  path +:+ "/agents/" +:+ agent_id +:+ ".json".

Definition sample_project (agents : gmap string Agent) : project.Project :=
  {| project.config :=
       {| project.name := "TestProject";
          project.description := Some "Test project";
          project.version := "0.1.0"; project.author := None;
          project.python_version := ">=3.8"; project.dependencies := [] |};
     project.path := "proj";
     project.agents := agents;
     project.created_at := 0%Z;
     project.updated_at := 0%Z |}.

Definition sample_store : project.Store :=
  {| project.this := sample_project {["a" := agent_a]};
     project.files := {["proj/agents/a.json"]};
     project.ticks := 0 |}.

(** X20: "a" is removed from the sample project. *)
Lemma remove_agent_known_witness :
  let s' := project.remove_agent sample_now sample_agent_file "a"
              sample_store in
  project.get_agent "a" (project.this sample_store) = Some agent_a ∧
  project.get_agent "a" (project.this s') = None ∧
  "proj/agents/a.json" ∉ project.files s'.
Proof.
  cbv zeta. split; [reflexivity|].
  destruct (project.remove_agent_known sample_now sample_agent_file "a"
              agent_a sample_store) as (Hg & Hf & _).
  - reflexivity.
  - split; [exact Hg | exact Hf].
Defined.

(** X21: [agent_blank] is added to the sample project and removed again. *)
Lemma add_then_remove_agent_witness :
  project.get_agent (id agent_blank) (project.this sample_store) = None ∧
  project.agents
    (project.this
       (project.remove_agent sample_now sample_agent_file (id agent_blank)
          (project.add_agent sample_now agent_blank sample_store)))
  = project.agents (project.this sample_store).
Proof.
  split; [reflexivity|].
  apply (project.add_then_remove_agent sample_now sample_agent_file
           agent_blank sample_store).
  reflexivity.
Defined.

(** The server with the sample project loaded and nothing running. *)
Definition sample_globals : server.Globals :=
  {| server.current_project := Some (project.this sample_store);
     server.execution_env := __init__;
     server.readings := 0 |}.

(** X23: the endpoint is asked twice to execute "a". *)
Lemma endpoint_twice_witness :
  let g1 := fst (server.execute_agent sample_now sample_repr "a"
                   sample_globals) in
  server.execute_agent sample_now sample_repr "a" g1 =
  (g1, inl {| server.status_code := 400;
              server.detail := "Agent is already running" |}).
Proof.
  cbv zeta.
  eapply (server.endpoint_twice sample_now sample_repr "a" sample_globals).
  vm_compute. reflexivity.
Defined.
